(** * cursor-deepseek: the OpenAI-to-DeepSeek gateway of [proxy.go]

    A shallow embedding of the request handler, the schema translator and
    the streaming relay of [proxy.go], and the properties of the
    specification that are about them.

    Conventions of the embedding.
    - Go [string] is [string]; Go [int] and [int64] are [Z]; a [float64] is
      a primitive binary64 [float].
    - A slice is a [list]; [nil] and the empty slice are both [[]] (the code
      only takes [len] of its slices, ranges over them and appends to them).
    - A pointer field ([*float64], [*int]) that is only tested against [nil]
      and dereferenced is an [option].
    - A value of type [interface{}] filled in by [json.Unmarshal] is a
      [json] value; [JNull] is the [nil] interface.
    - [http.Header] and [map[string]interface{}] are [gmap string _].
    - The functions of the Go library that the handler calls on bytes or on
      the network ([json.Unmarshal] of a body, [httpClient.Do]) are fields
      of the environment [Env] that the handler takes. *)

From Stdlib Require Import ZArith Ascii String List.
From Stdlib Require Import Floats.PrimFloat.
From stdpp Require Import base option list strings gmap fin_maps.

Local Open Scope string_scope.
Local Open Scope Z_scope.

(** ** Constants *)

Definition deepseekEndpoint : string := "https://api.deepseek.com".
Definition deepseekBetaEndpoint : string := "https://api.deepseek.com/beta".
Definition openRouterEndpoint : string := "https://openrouter.ai/api/v1".
Definition deepseekOpenRouterModel : string := "deepseek/deepseek-chat".
Definition deepseekChatModel : string := "deepseek-chat".
Definition deepseekCoderModel : string := "deepseek-coder".
Definition gpt4oModel : string := "gpt-4o".

Record Config := {
  endpoint : string;
  model : string;
  apiKey : string
}.

(** ** JSON values

    What [json.Unmarshal] stores in an [interface{}] and what
    [json.Marshal] emits: [nil], [bool], [float64], [string],
    [[]interface{}] and [map[string]interface{}]. [JInt] is the number
    emitted for a Go integer field. *)

#[local] Unset Elimination Schemes.
Inductive json : Type :=
| JNull
| JBool (b : bool)
| JNum (f : float)
| JInt (z : Z)
| JStr (s : string)
| JArr (l : list json)
| JObj (m : gmap string json).
#[local] Set Elimination Schemes.

(** ** Request and response structures *)

Record FunctionCall := {
  fc_Name : string;
  fc_Arguments : string
}.

Record ToolCall := {
  tc_ID : string;
  tc_Type : string;
  tc_Function : FunctionCall
}.

Record Message := {
  Role : string;
  Content : string;
  ToolCalls : list ToolCall;
  ToolCallID : string;
  Name : string
}.

Record Function := {
  fn_Name : string;
  fn_Description : string;
  fn_Parameters : json
}.

Record Tool := {
  tool_Type : string;
  tool_Function : Function
}.

Record ChatRequest := {
  cr_Model : string;
  cr_Messages : list Message;
  cr_Stream : bool;
  cr_Functions : list Function;
  cr_Tools : list Tool;
  cr_ToolChoice : json;
  cr_Temperature : option float;
  cr_MaxTokens : option Z
}.

Record DeepSeekRequest := {
  ds_Model : string;
  ds_Messages : list Message;
  ds_Stream : bool;
  ds_Temperature : float;
  ds_MaxTokens : Z;
  ds_Tools : list Tool;
  ds_ToolChoice : string
}.

(** ** [convertMessages] *)

(** Go's [len] of a slice. *)
Definition len {A} (l : list A) : Z := Z.of_nat (length l).
Arguments len : simpl never.

(** The inner loop: [toolCalls[j] = ToolCall{ID: tc.ID, Type: "function",
    Function: tc.Function}]. *)
Definition retypeToolCall (tc : ToolCall) : ToolCall :=
  {| tc_ID := tc_ID tc; tc_Type := "function"; tc_Function := tc_Function tc |}.

Definition withToolCalls (m : Message) (tcs : list ToolCall) : Message :=
  {| Role := Role m; Content := Content m; ToolCalls := tcs;
     ToolCallID := ToolCallID m; Name := Name m |}.

Definition withRole (m : Message) (r : string) : Message :=
  {| Role := r; Content := Content m; ToolCalls := ToolCalls m;
     ToolCallID := ToolCallID m; Name := Name m |}.

(** One iteration of the outer loop: the value left in [converted[i]]. *)
Definition convertMessage (msg : Message) : Message :=
  let c0 := msg in
  let c1 :=
    if String.eqb (Role msg) "assistant" && (0 <? len (ToolCalls msg))
    then withToolCalls c0 (retypeToolCall <$> ToolCalls msg)
    else c0 in
  if String.eqb (Role msg) "function" then withRole c1 "tool" else c1.

Definition convertMessages (messages : list Message) : list Message :=
  convertMessage <$> messages.

(** ** [convertToolChoice]

    [choice == nil] is [JNull]; the type assertion [choice.(string)]
    succeeds on [JStr]; [choice.(map[string]interface{})] succeeds on
    [JObj]. [choiceMap["type"] == "function"] compares an interface value
    with a string: it holds when the key is bound to that very string. *)
Definition convertToolChoice (choice : json) : string :=
  match choice with
  | JNull => ""
  | JStr str =>
      if String.eqb str "auto" || String.eqb str "none" then str else ""
  | JObj choiceMap =>
      match choiceMap !! "type" with
      | Some (JStr t) => if String.eqb t "function" then "auto" else ""
      | _ => ""
      end
  | _ => ""
  end.

(** ** Building the upstream request (the body of [proxyHandler] between
    the model check and [json.Marshal]) *)

(** [tools[i] = Tool{Type: "function", Function: fn}] *)
Definition liftFunction (fn : Function) : Tool :=
  {| tool_Type := "function"; tool_Function := fn |}.

Definition buildDeepSeekRequest (activeConfig : Config) (chatReq : ChatRequest)
  : DeepSeekRequest :=
  let tc := convertToolChoice (cr_ToolChoice chatReq) in
  {| ds_Model := model activeConfig;
     ds_Messages := convertMessages (cr_Messages chatReq);
     ds_Stream := cr_Stream chatReq;
     (* if chatReq.Temperature != nil { ... = *chatReq.Temperature } *)
     ds_Temperature :=
       match cr_Temperature chatReq with Some t => t | None => 0%float end;
     (* if chatReq.MaxTokens != nil { ... = *chatReq.MaxTokens } *)
     ds_MaxTokens :=
       match cr_MaxTokens chatReq with Some n => n | None => 0 end;
     ds_Tools :=
       if 0 <? len (cr_Tools chatReq) then cr_Tools chatReq
       else if 0 <? len (cr_Functions chatReq)
            then liftFunction <$> cr_Functions chatReq
            else [];
     ds_ToolChoice :=
       if 0 <? len (cr_Tools chatReq)
       then (if negb (String.eqb tc "") then tc else "")
       else if 0 <? len (cr_Functions chatReq)
            then (if negb (String.eqb tc "") then tc else "")
            else "" |}.

(** ** [json.Marshal] of the structures, following their field tags

    A field tagged [omitempty] is left out when it holds the empty value of
    its type: [0] for a number ([v.Float() == 0] for a [float64], so both
    zeros), the empty string, a slice of length 0. *)

Definition put (k : string) (v : json) (o : gmap string json) : gmap string json :=
  <[k := v]> o.

Definition putOmitEmpty (empty : bool) (k : string) (v : json)
  (o : gmap string json) : gmap string json :=
  if empty then o else <[k := v]> o.

Definition marshalFunctionCall (f : FunctionCall) : json :=
  JObj (put "arguments" (JStr (fc_Arguments f))
       (put "name" (JStr (fc_Name f)) ∅)).

Definition marshalToolCall (tc : ToolCall) : json :=
  JObj (put "function" (marshalFunctionCall (tc_Function tc))
       (put "type" (JStr (tc_Type tc))
       (put "id" (JStr (tc_ID tc)) ∅))).

Definition marshalMessage (m : Message) : json :=
  JObj (putOmitEmpty (String.eqb (Name m) "") "name" (JStr (Name m))
       (putOmitEmpty (String.eqb (ToolCallID m) "") "tool_call_id" (JStr (ToolCallID m))
       (putOmitEmpty (len (ToolCalls m) =? 0) "tool_calls"
                     (JArr (marshalToolCall <$> ToolCalls m))
       (put "content" (JStr (Content m))
       (put "role" (JStr (Role m)) ∅))))).

Definition marshalFunction (f : Function) : json :=
  JObj (put "parameters" (fn_Parameters f)
       (put "description" (JStr (fn_Description f))
       (put "name" (JStr (fn_Name f)) ∅))).

Definition marshalTool (t : Tool) : json :=
  JObj (put "function" (marshalFunction (tool_Function t))
       (put "type" (JStr (tool_Type t)) ∅)).

(** The float encoder of [encoding/json] refuses NaN and the infinities
    ([UnsupportedValueError]); the test for emptiness comes first. *)
Definition float64_unsupported (f : float) : bool :=
  PrimFloat.is_nan f || PrimFloat.is_infinity f.

Definition float64_empty (f : float) : bool := PrimFloat.eqb f 0%float.

Definition marshalDeepSeekRequest (r : DeepSeekRequest) : option json :=
  if negb (float64_empty (ds_Temperature r)) && float64_unsupported (ds_Temperature r)
  then None
  else Some (JObj
    (putOmitEmpty (String.eqb (ds_ToolChoice r) "") "tool_choice" (JStr (ds_ToolChoice r))
    (putOmitEmpty (len (ds_Tools r) =? 0) "tools" (JArr (marshalTool <$> ds_Tools r))
    (putOmitEmpty (ds_MaxTokens r =? 0) "max_tokens" (JInt (ds_MaxTokens r))
    (putOmitEmpty (float64_empty (ds_Temperature r)) "temperature" (JNum (ds_Temperature r))
    (put "stream" (JBool (ds_Stream r))
    (put "messages" (JArr (marshalMessage <$> ds_Messages r))
    (put "model" (JStr (ds_Model r)) ∅)))))))).

(** The JSON object sent upstream for an accepted chat request. *)
Definition upstreamJSON (activeConfig : Config) (chatReq : ChatRequest) : option json :=
  marshalDeepSeekRequest (buildDeepSeekRequest activeConfig chatReq).

(** The attribute [k] of a JSON object, if it is emitted. *)
Definition attr (k : string) (j : json) : option json :=
  match j with JObj o => o !! k | _ => None end.

(** ** Non-streaming replies: the conversion loop of [handleRegularResponse] *)

Record Choice := {
  ch_Index : Z;
  ch_Message : Message;
  ch_FinishReason : string
}.

Record Usage := {
  PromptTokens : Z;
  CompletionTokens : Z;
  TotalTokens : Z
}.

(** The anonymous struct type shared by [deepseekResp] and [openAIResp]. *)
Record Completion := {
  cc_ID : string;
  cc_Object : string;
  cc_Created : Z;
  cc_Model : string;
  cc_Choices : list Choice;
  cc_Usage : Usage
}.

(** [openAIResp.Choices[i].Message.ToolCalls =
      append(openAIResp.Choices[i].Message.ToolCalls, tc)] *)
Definition appendToolCall (c : Choice) (tc : ToolCall) : Choice :=
  {| ch_Index := ch_Index c;
     ch_Message := withToolCalls (ch_Message c) (ToolCalls (ch_Message c) ++ [tc]);
     ch_FinishReason := ch_FinishReason c |}.

(** The body of the inner loop: a tool call without a function name is
    skipped ([continue]), any other is appended to the slot. *)
Definition keepNamed (slot : Choice) (tc : ToolCall) : Choice :=
  if String.eqb (fc_Name (tc_Function tc)) "" then slot else appendToolCall slot tc.

(** One iteration of the outer loop: the value left in
    [openAIResp.Choices[i]]. The slot is first assigned the struct literal
    with [Message: choice.Message], which already carries the tool calls
    of the upstream choice; the inner loop then appends to it. *)
Definition convertChoice (choice : Choice) : Choice :=
  let slot :=
    {| ch_Index := ch_Index choice;
       ch_Message := ch_Message choice;
       ch_FinishReason := ch_FinishReason choice |} in
  if 0 <? len (ToolCalls (ch_Message choice))
  then fold_left keepNamed (ToolCalls (ch_Message choice)) slot
  else slot.

Definition convertResponse (deepseekResp : Completion) : Completion :=
  {| cc_ID := cc_ID deepseekResp;
     cc_Object := "chat.completion";
     cc_Created := cc_Created deepseekResp;
     cc_Model := gpt4oModel;
     cc_Choices := convertChoice <$> cc_Choices deepseekResp;
     cc_Usage := cc_Usage deepseekResp |}.

Definition marshalUsage (u : Usage) : json :=
  JObj (put "total_tokens" (JInt (TotalTokens u))
       (put "completion_tokens" (JInt (CompletionTokens u))
       (put "prompt_tokens" (JInt (PromptTokens u)) ∅))).

Definition marshalChoice (c : Choice) : json :=
  JObj (put "finish_reason" (JStr (ch_FinishReason c))
       (put "message" (marshalMessage (ch_Message c))
       (put "index" (JInt (ch_Index c)) ∅))).

(** No field of the reply is a float: [json.Marshal] cannot fail on it. *)
Definition marshalCompletion (r : Completion) : option json :=
  Some (JObj (put "usage" (marshalUsage (cc_Usage r))
             (put "choices" (JArr (marshalChoice <$> cc_Choices r))
             (put "model" (JStr (cc_Model r))
             (put "created" (JInt (cc_Created r))
             (put "object" (JStr (cc_Object r))
             (put "id" (JStr (cc_ID r)) ∅))))))).

(** ** The HTTP objects the handler works on *)

(** How a body ends once its bytes are consumed: a clean end of stream
    ([io.EOF]) or a transport error. *)
Inductive ending := EOF | ReadError.

Record Body := {
  body_data : string;
  body_ending : ending
}.

(** [io.ReadAll] and [io.Copy] into a buffer: the whole data on a clean
    end, an error otherwise. *)
Definition io_ReadAll (b : Body) : option string :=
  match body_ending b with
  | EOF => Some (body_data b)
  | ReadError => None
  end.

(** [http.Header]; the keys the handler uses are in canonical form. *)
Abbreviation Header := (gmap string (list string)).

Definition Header_Get (h : Header) (k : string) : string :=
  match h !! k with
  | Some (v :: _) => v
  | _ => ""
  end.

Definition Header_Set (k v : string) (h : Header) : Header := <[k := [v]]> h.

Definition Header_Add (k v : string) (h : Header) : Header :=
  <[k := (default [] (h !! k) ++ [v])%list]> h.

Record Request := {
  req_Method : string;
  req_Path : string;
  req_RawQuery : string;
  req_Header : Header;
  req_Body : Body
}.

Record Response := {
  resp_StatusCode : Z;
  resp_Header : Header;
  resp_Body : Body
}.

Record ProxyRequest := {
  pr_Method : string;
  pr_URL : string;
  pr_Header : Header;
  pr_Body : string
}.

(** The [http.ResponseWriter]: the header map, the status line once it is
    written, and the bytes written so far. *)
Record ResponseWriter := {
  rw_Header : Header;
  rw_Status : option Z;
  rw_Body : string
}.

Definition newResponseWriter : ResponseWriter :=
  {| rw_Header := ∅; rw_Status := None; rw_Body := "" |}.

Definition setHeader (k v : string) (w : ResponseWriter) : ResponseWriter :=
  {| rw_Header := Header_Set k v (rw_Header w);
     rw_Status := rw_Status w; rw_Body := rw_Body w |}.

Definition WriteHeader (code : Z) (w : ResponseWriter) : ResponseWriter :=
  match rw_Status w with
  | Some _ => w
  | None => {| rw_Header := rw_Header w; rw_Status := Some code; rw_Body := rw_Body w |}
  end.

(** [w.Write]: the first write sends status 200 if none was written. *)
Definition Write (b : string) (w : ResponseWriter) : ResponseWriter :=
  let w := WriteHeader 200 w in
  {| rw_Header := rw_Header w; rw_Status := rw_Status w; rw_Body := rw_Body w ++ b |}.

(** The line feed, and the line-terminated form of a text. *)
Definition LF : Ascii.ascii := "010"%char.

Definition ln (s : string) : string := s ++ String LF "".

(** [http.Error]: plain-text headers, the status, the message and a newline. *)
Definition http_Error (w : ResponseWriter) (error : string) (code : Z) : ResponseWriter :=
  Write (ln error)
    (WriteHeader code
      (setHeader "X-Content-Type-Options" "nosniff"
        (setHeader "Content-Type" "text/plain; charset=utf-8" w))).

Definition enableCors (w : ResponseWriter) : ResponseWriter :=
  setHeader "Access-Control-Allow-Credentials" "true"
    (setHeader "Access-Control-Expose-Headers" "Content-Length"
      (setHeader "Access-Control-Allow-Headers" "Origin, Content-Type, Accept, Authorization"
        (setHeader "Access-Control-Allow-Methods" "POST, GET, OPTIONS"
          (setHeader "Access-Control-Allow-Origin" "*" w)))).

(** The [skipHeaders] table of [copyHeaders]. The keys of an inbound
    header are canonical already, so that [dst.Add] keeps them. *)
Definition skipHeaders : list string :=
  ["Content-Length"; "Content-Encoding"; "Transfer-Encoding"; "Connection"].

Definition skipped (k : string) : bool :=
  existsb (String.eqb k) skipHeaders.

Definition copyHeaders (dst src : Header) : Header :=
  map_fold (fun k vv dst =>
              if negb (skipped k)
              then fold_left (fun dst v => Header_Add k v dst) vv dst
              else dst) dst src.

(** [for k, v := range resp.Header { w.Header()[k] = v }] *)
Definition forwardHeaders (wh src : Header) : Header :=
  map_fold (fun k v wh => <[k := v]> wh) wh src.

Definition strings_TrimPrefix (s p : string) : string :=
  if String.prefix p s
  then String.substring (String.length p) (String.length s - String.length p)%nat s
  else s.

(** ** The request handler *)

(** What the handler takes from its surroundings: the profile selected at
    start-up, the clock, and the library calls that work on bytes or on the
    network. [json_Unmarshal_*] is [None] when [json.Unmarshal] returns an
    error; [httpClient_Do] is [None] on a transport failure;
    [http_NewRequest_ok method url] tells whether [http.NewRequest] accepts
    the method and the target URL; [json_Encode] gives the bytes for a JSON
    value. *)
Record Env := {
  activeConfig : Config;
  time_Now : Z;
  json_Unmarshal_ChatRequest : string -> option ChatRequest;
  json_Unmarshal_Completion : string -> option Completion;
  json_Encode : json -> string;
  http_NewRequest_ok : string -> string -> bool;
  httpClient_Do : ProxyRequest -> option Response
}.

(** How a call of [proxyHandler] goes on: it has returned with the reply
    in [w], or control is in the relay loop of [handleStreamingResponse]
    with the stream headers and status already written to [w]. *)
Inductive Outcome :=
| Replied (w : ResponseWriter)
| Relaying (w : ResponseWriter) (resp : Response).

(** The outcome together with the requests issued upstream. *)
Record Handled := {
  sent : list ProxyRequest;
  outcome : Outcome
}.

Definition writerOf (o : Outcome) : ResponseWriter :=
  match o with Replied w => w | Relaying w _ => w end.

Section Handler.

Variable E : Env.

Definition modelJSON (id owner : string) : json :=
  JObj (put "owned_by" (JStr owner)
       (put "created" (JInt (time_Now E))
       (put "object" (JStr "model")
       (put "id" (JStr id) ∅)))).

Definition handleModelsRequest (w : ResponseWriter) : ResponseWriter :=
  let response :=
    JObj (put "data" (JArr [modelJSON "gpt-4o" "openai";
                             modelJSON "deepseek-chat" "deepseek"])
         (put "object" (JStr "list") ∅)) in
  Write (ln (json_Encode E response))
    (setHeader "Content-Type" "application/json" w).

Definition readResponse (resp : Response) : option string :=
  io_ReadAll (resp_Body resp).

Definition handleRegularResponse (w : ResponseWriter) (resp : Response)
  : ResponseWriter :=
  match readResponse resp with
  | None => http_Error w "Error reading response from upstream" 500
  | Some body =>
      match json_Unmarshal_Completion E body with
      | None => WriteHeader 500 w
      | Some deepseekResp =>
          let openAIResp := convertResponse deepseekResp in
          match marshalCompletion openAIResp with
          | None => WriteHeader 500 w
          | Some j =>
              let modifiedBody := json_Encode E j in
              Write modifiedBody
                (WriteHeader (resp_StatusCode resp)
                  (setHeader "Content-Type" "application/json" w))
          end
      end
  end.

(** The entry of [handleStreamingResponse], up to the relay loop. *)
Definition startStreaming (w : ResponseWriter) (resp : Response) : ResponseWriter :=
  WriteHeader (resp_StatusCode resp)
    (setHeader "Connection" "keep-alive"
      (setHeader "Cache-Control" "no-cache"
        (setHeader "Content-Type" "text/event-stream" w))).

(** The branch [resp.StatusCode >= 400] once the body is read. *)
Definition forwardError (w : ResponseWriter) (resp : Response) (respBody : string)
  : ResponseWriter :=
  let w1 := {| rw_Header := forwardHeaders (rw_Header w) (resp_Header resp);
               rw_Status := rw_Status w; rw_Body := rw_Body w |} in
  Write respBody
    (WriteHeader (resp_StatusCode resp)
      (setHeader "Content-Type" "application/json" w1)).

(** The header of the request sent upstream. [Header.Set] stores
    [HTTP-Referer] under its canonical key. *)
Definition proxyHeader (r : Request) (chatReq : ChatRequest) : Header :=
  let h := copyHeaders ∅ (req_Header r) in
  let h := Header_Set "Authorization" ("Bearer " ++ apiKey (activeConfig E)) h in
  let h := Header_Set "Content-Type" "application/json" h in
  let h := if String.eqb (endpoint (activeConfig E)) openRouterEndpoint
           then Header_Set "X-Title" "Cursor DeepSeek"
                  (Header_Set "Http-Referer"
                     "https://github.com/danilofalcao/cursor-deepseek" h)
           else h in
  let h := if cr_Stream chatReq then Header_Set "Accept" "text/event-stream" h else h in
  let acceptLanguage := Header_Get (req_Header r) "Accept-Language" in
  if negb (String.eqb acceptLanguage "")
  then Header_Set "Accept-Language" acceptLanguage h
  else h.

Definition targetURL (r : Request) : string :=
  endpoint (activeConfig E) ++ req_Path r ++
  (if negb (String.eqb (req_RawQuery r) "") then "?" ++ req_RawQuery r else "").

Definition replied (w : ResponseWriter) : Handled :=
  {| sent := []; outcome := Replied w |}.

(** The request sent upstream, with [modifiedBody] as its body. *)
Definition proxyRequest (r : Request) (chatReq : ChatRequest) (modifiedBody : string)
  : ProxyRequest :=
  {| pr_Method := req_Method r; pr_URL := targetURL r;
     pr_Header := proxyHeader r chatReq; pr_Body := modifiedBody |}.

(** From [json.Marshal(deepseekReq)] to the end of [proxyHandler]. *)
Definition dispatch (w : ResponseWriter) (r : Request) (chatReq : ChatRequest)
  : Handled :=
  match upstreamJSON (activeConfig E) chatReq with
  | None => replied (http_Error w "Error creating modified request" 500)
  | Some j =>
      let modifiedBody := json_Encode E j in
      if negb (http_NewRequest_ok E (req_Method r) (targetURL r))
      then replied (http_Error w "Error creating proxy request" 500)
      else
        let proxyReq := proxyRequest r chatReq modifiedBody in
        match httpClient_Do E proxyReq with
        | None =>
            {| sent := [proxyReq];
               outcome := Replied (http_Error w "Error forwarding request" 502) |}
        | Some resp =>
            {| sent := [proxyReq];
               outcome :=
                 if 400 <=? resp_StatusCode resp then
                   match io_ReadAll (resp_Body resp) with
                   | None => Replied (http_Error w "Error reading response" 500)
                   | Some respBody => Replied (forwardError w resp respBody)
                   end
                 else if cr_Stream chatReq then Relaying (startStreaming w resp) resp
                 else Replied (handleRegularResponse w resp) |}
        end
  end.

(** [proxyHandler]. The body is decoded twice by the code, each time from
    the same bytes. *)
Definition proxyHandler (r : Request) : Handled :=
  if String.eqb (req_Method r) "OPTIONS" then replied (enableCors newResponseWriter)
  else
    let w := enableCors newResponseWriter in
    let authHeader := Header_Get (req_Header r) "Authorization" in
    if negb (String.prefix "Bearer " authHeader)
    then replied (http_Error w "Missing or invalid Authorization header" 401)
    else
      let userAPIKey := strings_TrimPrefix authHeader "Bearer " in
      if negb (String.eqb userAPIKey (apiKey (activeConfig E)))
      then replied (http_Error w "Invalid API key" 401)
      else if String.eqb (req_Path r) "/v1/models" && String.eqb (req_Method r) "GET"
      then replied (handleModelsRequest w)
      else
        match io_ReadAll (req_Body r) with
        | None => replied (http_Error w "Error reading request" 400)
        | Some body =>
            match json_Unmarshal_ChatRequest E body with
            | None => replied (http_Error w "Invalid JSON" 400)
            | Some _ =>
                if String.eqb (req_Path r) "/v1/models"
                then replied (handleModelsRequest w)
                else if negb (String.prefix "/v1/" (req_Path r))
                then replied (http_Error w "Not found" 404)
                else
                  match json_Unmarshal_ChatRequest E body with
                  | None => replied (http_Error w "Error parsing request" 400)
                  | Some chatReq =>
                      if String.eqb (cr_Model chatReq) gpt4oModel
                      then dispatch w r chatReq
                      else replied
                             (http_Error w
                                ("Model " ++ cr_Model chatReq ++
                                 " not supported. Use " ++ gpt4oModel ++ " instead.")
                                400)
                  end
            end
        end.

End Handler.

(** ** The relay loop of [handleStreamingResponse]

    The loop is modelled one iteration at a time. What the other parties do
    is given by two oracles indexed by the iteration: [ctxDone i] tells
    whether the shared context is already cancelled when iteration [i]
    polls it (the client went away, or the heartbeat activity called
    [cancel]); [writeFails i] tells whether a write to the client made in
    iteration [i] returns an error. The writes of the heartbeat activity
    are not part of this loop; how they meet the writes of the relay is
    modelled below, under the two writers. *)

(** The first line of [s] with its line feed, and what follows it. *)
Fixpoint cutLine (s : string) : option (string * string) :=
  match s with
  | EmptyString => None
  | String c rest =>
      if Ascii.eqb c LF then Some (String c "", rest)
      else match cutLine rest with
           | Some (line, rest') => Some (String c line, rest')
           | None => None
           end
  end.

(** [reader.ReadBytes('\n')]: the next line, or the bytes left together
    with the reason why no line feed came. *)
Definition ReadBytes (b : Body) : string * option ending * Body :=
  match cutLine (body_data b) with
  | Some (line, rest) =>
      (line, None, {| body_data := rest; body_ending := body_ending b |})
  | None =>
      (body_data b, Some (body_ending b),
       {| body_data := ""; body_ending := body_ending b |})
  end.

(** The value of a byte. *)
Definition byteOf (c : ascii) : Z := Z.of_N (N_of_ascii c).

(** [utf8.RuneError], the character that stands for an invalid encoding. *)
Definition RuneError : Z := 0xFFFD.

(** A continuation byte of UTF-8. *)
Definition continuation (b : Z) : bool := (0x80 <=? b) && (b <=? 0xBF).

(** [utf8.DecodeRune]: the first character of [s] and what follows it. A
    byte that does not start a well-formed encoding is [RuneError] of
    width 1. *)
Definition utf8_DecodeRune (s : string) : Z * string :=
  match s with
  | EmptyString => (RuneError, EmptyString)
  | String c0 rest0 =>
      let b0 := byteOf c0 in
      let invalid := (RuneError, rest0) in
      if b0 <? 0x80 then (b0, rest0)
      else if (0xC2 <=? b0) && (b0 <=? 0xDF) then
        match rest0 with
        | String c1 rest1 =>
            let b1 := byteOf c1 in
            if continuation b1
            then (Z.lor (Z.shiftl (Z.land b0 0x1F) 6) (Z.land b1 0x3F), rest1)
            else invalid
        | _ => invalid
        end
      else if (0xE0 <=? b0) && (b0 <=? 0xEF) then
        match rest0 with
        | String c1 (String c2 rest2) =>
            let b1 := byteOf c1 in
            let b2 := byteOf c2 in
            let lo := if b0 =? 0xE0 then 0xA0 else 0x80 in
            let hi := if b0 =? 0xED then 0x9F else 0xBF in
            if (lo <=? b1) && (b1 <=? hi) && continuation b2
            then (Z.lor (Z.shiftl (Z.land b0 0x0F) 12)
                    (Z.lor (Z.shiftl (Z.land b1 0x3F) 6) (Z.land b2 0x3F)), rest2)
            else invalid
        | _ => invalid
        end
      else if (0xF0 <=? b0) && (b0 <=? 0xF4) then
        match rest0 with
        | String c1 (String c2 (String c3 rest3)) =>
            let b1 := byteOf c1 in
            let b2 := byteOf c2 in
            let b3 := byteOf c3 in
            let lo := if b0 =? 0xF0 then 0x90 else 0x80 in
            let hi := if b0 =? 0xF4 then 0x8F else 0xBF in
            if (lo <=? b1) && (b1 <=? hi) && continuation b2 && continuation b3
            then (Z.lor (Z.shiftl (Z.land b0 0x07) 18)
                    (Z.lor (Z.shiftl (Z.land b1 0x3F) 12)
                       (Z.lor (Z.shiftl (Z.land b2 0x3F) 6) (Z.land b3 0x3F))), rest3)
            else invalid
        | _ => invalid
        end
      else invalid
  end.

(** [unicode.IsSpace]: the white space of Latin-1, and beyond it the
    characters with the property White_Space. *)
Definition unicode_IsSpace (r : Z) : bool :=
  if r <=? 0xFF then
    ((0x09 <=? r) && (r <=? 0x0D)) || (r =? 0x20) || (r =? 0x85) || (r =? 0xA0)
  else
    (r =? 0x1680) || ((0x2000 <=? r) && (r <=? 0x200A)) ||
    (r =? 0x2028) || (r =? 0x2029) || (r =? 0x202F) || (r =? 0x205F) ||
    (r =? 0x3000).

(** Every character of [s], decoded from the left, is white space. Each
    character takes at least one byte, so that [fuel] at least the length
    of [s] is enough. *)
Fixpoint allSpace (fuel : nat) (s : string) : bool :=
  match s with
  | EmptyString => true
  | String _ _ =>
      match fuel with
      | O => false
      | S fuel' =>
          let '(r, rest) := utf8_DecodeRune s in
          unicode_IsSpace r && allSpace fuel' rest
      end
  end.

(** [len(bytes.TrimSpace(line)) == 0]. [bytes.TrimSpace] cuts the white
    space, ASCII and Unicode, off both ends of the line; nothing is left
    exactly when the line is white space throughout. *)
Definition blank (line : string) : bool := allSpace (String.length line) line.

Record Relay := {
  rl_upstream : Body;
  rl_w : ResponseWriter;
  rl_cancelled : bool
}.

Inductive Progress :=
| Active (st : Relay)
| Closed (st : Relay).

Definition startRelay (w : ResponseWriter) (resp : Response) : Relay :=
  {| rl_upstream := resp_Body resp; rl_w := w; rl_cancelled := false |}.

(** One iteration of [for { select { ... } }]. [Active] is [continue] or
    the fall through to the next iteration, [Closed] is [return]. *)
Definition relayStep (done fails : bool) (st : Relay) : Progress :=
  if done then Closed st
  else
    let '(line, err, rest) := ReadBytes (rl_upstream st) in
    match err with
    | Some EOF =>
        Active {| rl_upstream := rest; rl_w := rl_w st; rl_cancelled := rl_cancelled st |}
    | Some ReadError =>
        Closed {| rl_upstream := rest; rl_w := rl_w st; rl_cancelled := true |}
    | None =>
        if blank line
        then Active {| rl_upstream := rest; rl_w := rl_w st;
                       rl_cancelled := rl_cancelled st |}
        else if fails
        then Closed {| rl_upstream := rest; rl_w := rl_w st; rl_cancelled := true |}
        else Active {| rl_upstream := rest; rl_w := Write line (rl_w st);
                       rl_cancelled := rl_cancelled st |}
    end.

(** [fuel] iterations of the loop, starting with iteration [i]. *)
Fixpoint relayLoop (ctxDone writeFails : nat -> bool) (fuel i : nat) (st : Relay)
  : Progress :=
  match fuel with
  | O => Active st
  | S fuel' =>
      match relayStep (ctxDone i) (writeFails i) st with
      | Active st' => relayLoop ctxDone writeFails fuel' (S i) st'
      | Closed st' => Closed st'
      end
  end.

(** ** What the specification says, in its own words *)


(** The tool calls that the inner loop of [handleRegularResponse] does not
    skip: those with a function name. *)
Definition named (tc : ToolCall) : bool :=
  negb (String.eqb (fc_Name (tc_Function tc)) "").

(** ** Sample inputs and the vocabulary of the statements *)

Definition sampleCall (id name : string) : ToolCall :=
  {| tc_ID := id; tc_Type := "tool";
     tc_Function := {| fc_Name := name; fc_Arguments := "{}" |} |}.

Definition sampleMessage (role : string) (tcs : list ToolCall) : Message :=
  {| Role := role; Content := "hello"; ToolCalls := tcs;
     ToolCallID := ""; Name := "" |}.

Definition sampleMessages : list Message :=
  [sampleMessage "user" [];
   sampleMessage "assistant" [sampleCall "call_1" "lookup"];
   sampleMessage "function" []].

Definition upstreamReply (tcs : list ToolCall) : Completion :=
  {| cc_ID := "cmpl-1"; cc_Object := "chat.completion"; cc_Created := 1700000000;
     cc_Model := "deepseek-chat";
     cc_Choices :=
       [{| ch_Index := 0;
           ch_Message := {| Role := "assistant"; Content := ""; ToolCalls := tcs;
                            ToolCallID := ""; Name := "" |};
           ch_FinishReason := "tool_calls" |}];
     cc_Usage := {| PromptTokens := 10; CompletionTokens := 5; TotalTokens := 15 |} |}.

Definition toolCallsOf (reply : Completion) : list (list ToolCall) :=
  (fun c => ToolCalls (ch_Message c)) <$> cc_Choices reply.

Definition quiet : nat -> bool := fun _ => false.

Definition streamOf (data : string) : Response :=
  {| resp_StatusCode := 200; resp_Header := ∅;
     resp_Body := {| body_data := data; body_ending := EOF |} |}.

Definition chatConfig : Config :=
  {| endpoint := deepseekEndpoint; model := deepseekChatModel; apiKey := "sk-test" |}.

Definition userMessage : Message :=
  {| Role := "user"; Content := "hello"; ToolCalls := []; ToolCallID := ""; Name := "" |}.

Definition chatRequest (toolChoice : json) (tools : list Tool)
  (temperature : option float) (maxTokens : option Z) : ChatRequest :=
  {| cr_Model := "gpt-4o"; cr_Messages := [userMessage]; cr_Stream := false;
     cr_Functions := []; cr_Tools := tools; cr_ToolChoice := toolChoice;
     cr_Temperature := temperature; cr_MaxTokens := maxTokens |}.

Definition weatherTool : Tool :=
  {| tool_Type := "function";
     tool_Function := {| fn_Name := "get_weather"; fn_Description := "weather";
                         fn_Parameters := JObj ∅ |} |}.


(** The request carries the configured key as its bearer credential. *)
Definition authorized (E : Env) (r : Request) : Prop :=
  Header_Get (req_Header r) "Authorization" = "Bearer " ++ apiKey (activeConfig E).

(** The body of the request can be read and decodes to [chatReq]. *)
Definition parsed (E : Env) (r : Request) (chatReq : ChatRequest) : Prop :=
  exists body : string,
    io_ReadAll (req_Body r) = Some body /\
    json_Unmarshal_ChatRequest E body = Some chatReq.

(** [body] contains [s]. *)
Definition names (body s : string) : Prop :=
  exists pre post : string, body = pre ++ s ++ post.

(** A gateway for the examples: the chat profile, a decoder that refuses
    the empty body (as [json.Unmarshal] does, "unexpected end of JSON
    input") and decodes any other body to [chatReq], and an upstream that
    answers every request with [upstream]. *)
Definition gateway (chatReq : ChatRequest) (upstream : option Response) : Env :=
  {| activeConfig := chatConfig;
     time_Now := 1700000000;
     json_Unmarshal_ChatRequest :=
       fun body => if String.eqb body "" then None else Some chatReq;
     json_Unmarshal_Completion := fun _ => None;
     json_Encode := fun _ => "<json>";
     http_NewRequest_ok := fun _ _ => true;
     httpClient_Do := fun _ => upstream |}.

Definition bearer (key : string) : Header := {[ "Authorization" := ["Bearer " ++ key] ]}.

Definition post (path body : string) : Request :=
  {| req_Method := "POST"; req_Path := path; req_RawQuery := "";
     req_Header := bearer "sk-test";
     req_Body := {| body_data := body; body_ending := EOF |} |}.

Definition gpt35Request : ChatRequest :=
  {| cr_Model := "gpt-3.5-turbo"; cr_Messages := [userMessage]; cr_Stream := false;
     cr_Functions := []; cr_Tools := []; cr_ToolChoice := JNull;
     cr_Temperature := None; cr_MaxTokens := None |}.

Definition rateLimited : Response :=
  {| resp_StatusCode := 429;
     resp_Header := {[ "Connection" := ["keep-alive"];
                       "Content-Length" := ["14"];
                       "Content-Type" := ["text/plain"] ]};
     resp_Body := {| body_data := "<rate limited>"; body_ending := EOF |} |}.

Definition plainRequest : ChatRequest := chatRequest JNull [] None None.

(** ** Start-up: [init]

    [init] reads the two keys from the environment and the [-model] flag
    from the command line, and either sets [activeConfig] or stops the
    process with [log.Fatal], which is [None] here. *)

(** The loop over [os.Args]: an argument [-model] that is not the last one
    sets the flag to the argument after it. *)
Fixpoint scanModelFlag (args : list string) (modelFlag : string) : string :=
  match args with
  | [] => modelFlag
  | arg :: rest =>
      match rest with
      | [] => modelFlag
      | next :: _ =>
          scanModelFlag rest (if String.eqb arg "-model" then next else modelFlag)
      end
  end.

(** The [switch modelFlag]. *)
Definition selectProfile (deepseekAPIKey openRouterAPIKey modelFlag : string)
  : option Config :=
  if String.eqb modelFlag "coder" then
    if String.eqb deepseekAPIKey "" then None
    else Some {| endpoint := deepseekBetaEndpoint; model := deepseekCoderModel;
                 apiKey := deepseekAPIKey |}
  else if String.eqb modelFlag "chat" then
    if String.eqb deepseekAPIKey "" then None
    else Some {| endpoint := deepseekEndpoint; model := deepseekChatModel;
                 apiKey := deepseekAPIKey |}
  else if String.eqb modelFlag "openrouter" then
    if String.eqb openRouterAPIKey "" then None
    else Some {| endpoint := openRouterEndpoint; model := deepseekOpenRouterModel;
                 apiKey := openRouterAPIKey |}
  else
    if String.eqb deepseekAPIKey "" then None
    else Some {| endpoint := deepseekEndpoint; model := deepseekChatModel;
                 apiKey := deepseekAPIKey |}.

Definition init (deepseekAPIKey openRouterAPIKey : string) (args : list string)
  : option Config :=
  if String.eqb deepseekAPIKey "" && String.eqb openRouterAPIKey "" then None
  else selectProfile deepseekAPIKey openRouterAPIKey (scanModelFlag args "chat").

(** ** [truncateString]

    [s[:maxLen]] panics when [maxLen] is negative, which is [None]. *)
Definition truncateString (s : string) (maxLen : Z) : option string :=
  if Z.of_nat (String.length s) <=? maxLen then Some s
  else if maxLen <? 0 then None
  else Some (String.substring 0 (Z.to_nat maxLen) s ++ "...").

(** ** The lines of a stream *)

(** The complete lines of [s], each with its line feed; [cur] is the part
    of the current line already seen. What follows the last line feed is
    not a line. *)
Fixpoint linesFrom (cur s : string) : list string :=
  match s with
  | EmptyString => []
  | String c rest =>
      if Ascii.eqb c LF then (cur ++ String c "") :: linesFrom "" rest
      else linesFrom (cur ++ String c "") rest
  end.

Definition linesOf (s : string) : list string := linesFrom "" s.

(** The lines the relay forwards: those that are not blank. *)
Definition payload (s : string) : list string :=
  List.filter (fun line => negb (blank line)) (linesOf s).

(** The bytes of a list of lines. *)
Definition joined (lines : list string) : string :=
  fold_right String.append "" lines.

(** A chat request that passes every test of [proxyHandler] before the
    translation: it is not OPTIONS, carries the configured key, its body
    decodes to [chatReq], its path is under [/v1/] and is not the models
    path, and it names the model "gpt-4o". *)
Definition accepted (E : Env) (r : Request) (chatReq : ChatRequest) : Prop :=
  req_Method r <> "OPTIONS" /\
  authorized E r /\
  parsed E r chatReq /\
  String.prefix "/v1/" (req_Path r) = true /\
  req_Path r <> "/v1/models" /\
  cr_Model chatReq = "gpt-4o".

(** A successful upstream reply with the body [data]. *)
Definition okReply (data : string) : Response :=
  {| resp_StatusCode := 200; resp_Header := ∅;
     resp_Body := {| body_data := data; body_ending := EOF |} |}.

(** An upstream stream with the bytes [data] that ends as [e] says. *)
Definition upstreamStream (data : string) (e : ending) : Response :=
  {| resp_StatusCode := 200; resp_Header := ∅;
     resp_Body := {| body_data := data; body_ending := e |} |}.

(** The state of the relay after a run, closed or not. *)
Definition relayState (p : Progress) : Relay :=
  match p with Active st => st | Closed st => st end.

(** The relay has returned. *)
Definition isClosed (p : Progress) : bool :=
  match p with Active _ => false | Closed _ => true end.

(** A chat request that asks for a streamed answer. *)
Definition streamingRequest : ChatRequest :=
  {| cr_Model := "gpt-4o"; cr_Messages := [userMessage]; cr_Stream := true;
     cr_Functions := []; cr_Tools := []; cr_ToolChoice := JNull;
     cr_Temperature := None; cr_MaxTokens := None |}.

(** A line that holds a no-break space (U+00A0, the bytes C2 A0) and
    nothing else. *)
Definition nbspLine : string :=
  String (ascii_of_N 194) (String (ascii_of_N 160) (String LF "")).

(** ** The two writers of a streaming response

    [handleStreamingResponse] runs two activities that call [w.Write] on
    the same [http.ResponseWriter]: the goroutine of the heartbeat and the
    relay loop. A call of [w.Write] takes time, and the scheduler may run
    the other activity between its start and its return, so that a call is
    two events. An activity is the list of its events in program order; a
    schedule tells, step by step, which activity runs next. A mutex would
    show as [Acquire] and [Release] around a call, and an activity that
    asks for a mutex held by the other one does not advance. *)

Inductive Activity := HeartbeatActivity | RelayActivity.

Inductive Event :=
| WriteEnter (a : Activity) (bytes : string)
| WriteLeave (a : Activity)
| FlushCall (a : Activity)
| Acquire (a : Activity)
| Release (a : Activity).

Definition sameActivity (a b : Activity) : bool :=
  match a, b with
  | HeartbeatActivity, HeartbeatActivity => true
  | RelayActivity, RelayActivity => true
  | _, _ => false
  end.

(** One tick of the heartbeat: [w.Write([]byte(": heartbeat\n\n"))], then
    [f.Flush()]. No mutex is taken. *)
Definition heartbeatTick : list Event :=
  [WriteEnter HeartbeatActivity (ln (ln ": heartbeat"));
   WriteLeave HeartbeatActivity;
   FlushCall HeartbeatActivity].

(** One forwarded line of the relay: [w.Write(line)], then [f.Flush()].
    No mutex is taken. *)
Definition relayLine (line : string) : list Event :=
  [WriteEnter RelayActivity line; WriteLeave RelayActivity; FlushCall RelayActivity].

Definition heartbeatProgram (ticks : nat) : list Event :=
  concat (replicate ticks heartbeatTick).

Definition relayProgram (data : string) : list Event :=
  concat (relayLine <$> payload data).

(** The next event of a program, unless it asks for a mutex that the other
    activity holds. *)
Definition nextEvent (a : Activity) (holder : option Activity) (prog : list Event)
  : option (Event * list Event) :=
  match prog with
  | [] => None
  | Acquire _ :: rest =>
      match holder with
      | Some b => if sameActivity a b then Some (Acquire a, rest) else None
      | None => Some (Acquire a, rest)
      end
  | e :: rest => Some (e, rest)
  end.

Definition holderAfter (e : Event) (holder : option Activity) : option Activity :=
  match e with
  | Acquire a => Some a
  | Release _ => None
  | _ => holder
  end.

(** The events in the order in which they happen under a schedule. *)
Fixpoint interleave (schedule : list Activity) (holder : option Activity)
  (hb rl : list Event) : list Event :=
  match schedule with
  | [] => []
  | HeartbeatActivity :: schedule' =>
      match nextEvent HeartbeatActivity holder hb with
      | Some (e, hb') => e :: interleave schedule' (holderAfter e holder) hb' rl
      | None => interleave schedule' holder hb rl
      end
  | RelayActivity :: schedule' =>
      match nextEvent RelayActivity holder rl with
      | Some (e, rl') => e :: interleave schedule' (holderAfter e holder) hb rl'
      | None => interleave schedule' holder hb rl
      end
  end.

(** No call of [w.Write] starts while another one has not returned;
    [inside] is the activity whose call is under way. *)
Fixpoint writesExclusive (inside : option Activity) (trace : list Event) : bool :=
  match trace with
  | [] => true
  | WriteEnter a _ :: trace' =>
      match inside with
      | Some _ => false
      | None => writesExclusive (Some a) trace'
      end
  | WriteLeave _ :: trace' => writesExclusive None trace'
  | _ :: trace' => writesExclusive inside trace'
  end.

(** The same calls with a mutex around each write and its flush, as the
    specification asks for. *)
Definition locked (a : Activity) (call : list Event) : list Event :=
  (Acquire a :: call) ++ [Release a].

(** All schedules of a given length. *)
Fixpoint schedules (n : nat) : list (list Activity) :=
  match n with
  | O => [[]]
  | S n' =>
      (cons HeartbeatActivity <$> schedules n') ++ (cons RelayActivity <$> schedules n')
  end.

(** * Properties *)

(** ** [convertMessages] *)

Lemma len_pos_iff {A} (l : list A) : (0 <? len l) = true <-> l <> [].
Proof.
  unfold len. rewrite Z.ltb_lt.
  destruct l as [|a l]; simpl; split; intros; try lia; congruence.
Qed.

Lemma convertMessage_plain (msg : Message) :
  Role msg <> "function" ->
  ~ (Role msg = "assistant" /\ ToolCalls msg <> []) ->
  convertMessage msg = msg.
Proof.
  intros Hf Ha. unfold convertMessage.
  apply String.eqb_neq in Hf. rewrite Hf.
  destruct (String.eqb_spec (Role msg) "assistant") as [Hr|Hr]; cbn [andb]; [|done].
  destruct (0 <? len (ToolCalls msg)) eqn:Hl; [|done].
  apply len_pos_iff in Hl. tauto.
Qed.

Lemma convertMessage_assistant (msg : Message) :
  Role msg = "assistant" -> ToolCalls msg <> [] ->
  convertMessage msg = withToolCalls msg (retypeToolCall <$> ToolCalls msg).
Proof.
  intros Hr Hl. unfold convertMessage. rewrite Hr.
  apply len_pos_iff in Hl. rewrite Hl. reflexivity.
Qed.

Lemma convertMessage_function (msg : Message) :
  Role msg = "function" -> convertMessage msg = withRole msg "tool".
Proof.
  intros Hr. unfold convertMessage. rewrite Hr. reflexivity.
Qed.

Lemma convertMessages_length (messages : list Message) :
  length (convertMessages messages) = length messages.
Proof. unfold convertMessages. apply length_fmap. Qed.

Lemma convertMessages_lookup (messages : list Message) (i : nat) :
  convertMessages messages !! i = convertMessage <$> messages !! i.
Proof. unfold convertMessages. apply list_lookup_fmap. Qed.

(** C10: [convertMessages] returns a list of the same length; at every
    index, a message that is neither of role "function" nor an "assistant"
    message with tool calls is returned unchanged; a rewritten assistant
    message keeps its role, content, tool-call id and name, and its tool
    calls keep their number, order, id and function, with the type set to
    "function"; a message of role "function" changes its role to "tool" and
    nothing else. *)
Theorem convertMessages_frame (messages : list Message) :
  length (convertMessages messages) = length messages /\
  forall (i : nat) (msg : Message),
    messages !! i = Some msg ->
    exists c : Message,
      convertMessages messages !! i = Some c /\
      (Role msg <> "function" ->
       ~ (Role msg = "assistant" /\ ToolCalls msg <> []) ->
       c = msg) /\
      (Role msg = "assistant" -> ToolCalls msg <> [] ->
       Role c = Role msg /\ Content c = Content msg /\
       ToolCallID c = ToolCallID msg /\ Name c = Name msg /\
       length (ToolCalls c) = length (ToolCalls msg) /\
       forall (j : nat) (tc : ToolCall),
         ToolCalls msg !! j = Some tc ->
         ToolCalls c !! j =
           Some {| tc_ID := tc_ID tc; tc_Type := "function";
                   tc_Function := tc_Function tc |}) /\
      (Role msg = "function" ->
       Role c = "tool" /\ Content c = Content msg /\
       ToolCalls c = ToolCalls msg /\
       ToolCallID c = ToolCallID msg /\ Name c = Name msg).
Proof.
  split; [apply convertMessages_length|].
  intros i msg Hi. exists (convertMessage msg). split.
  - rewrite convertMessages_lookup, Hi. reflexivity.
  - split; [|split].
    + apply convertMessage_plain.
    + intros Hr Hl. rewrite (convertMessage_assistant msg Hr Hl). simpl.
      repeat split; try reflexivity.
      * apply length_fmap.
      * intros j tc Hj. rewrite list_lookup_fmap, Hj. reflexivity.
    + intros Hr. rewrite (convertMessage_function msg Hr). simpl.
      repeat split; reflexivity.
Qed.

Lemma convertMessages_frame_witness :
  exists c : Message,
    convertMessages sampleMessages !! 1%nat = Some c /\
    Role c = "assistant" /\
    length (ToolCalls c) = 1%nat /\
    ToolCalls c !! 0%nat =
      Some {| tc_ID := "call_1"; tc_Type := "function";
              tc_Function := {| fc_Name := "lookup"; fc_Arguments := "{}" |} |}.
Proof.
  destruct (proj2 (convertMessages_frame sampleMessages) 1%nat _ eq_refl)
    as (c & Hc & _ & Ha & _).
  destruct Ha as (Hr & _ & _ & _ & Hlen & Htc); [reflexivity | discriminate |].
  exists c. split; [exact Hc|]. split; [exact Hr|]. split; [exact Hlen|].
  exact (Htc 0%nat _ eq_refl).
Defined.

(** ** The conversion loop of [handleRegularResponse] *)

Lemma fold_keepNamed (tcs : list ToolCall) (slot : Choice) :
  fold_left keepNamed tcs slot =
  {| ch_Index := ch_Index slot;
     ch_Message :=
       withToolCalls (ch_Message slot)
         (ToolCalls (ch_Message slot) ++ List.filter named tcs);
     ch_FinishReason := ch_FinishReason slot |}.
Proof.
  revert slot. induction tcs as [|tc tcs IH]; intros slot; simpl.
  - rewrite app_nil_r. destruct slot as [i [r c t d n] f]. reflexivity.
  - rewrite IH. unfold keepNamed, named.
    destruct (String.eqb (fc_Name (tc_Function tc)) ""); simpl; [reflexivity|].
    unfold withToolCalls; simpl. rewrite <- app_assoc. reflexivity.
Qed.

(** What the loop leaves in a slot: the tool calls of the upstream choice,
    followed by those of them that carry a function name. *)
Lemma convertChoice_tool_calls (choice : Choice) :
  ToolCalls (ch_Message (convertChoice choice)) =
  (ToolCalls (ch_Message choice) ++
   List.filter named (ToolCalls (ch_Message choice)))%list.
Proof.
  unfold convertChoice.
  destruct (0 <? len (ToolCalls (ch_Message choice))) eqn:Hl.
  - rewrite fold_keepNamed. reflexivity.
  - destruct (ToolCalls (ch_Message choice)) as [|tc tcs] eqn:Htcs.
    + simpl. exact Htcs.
    + assert (H : tc :: tcs <> []) by discriminate.
      apply len_pos_iff in H. congruence.
Qed.

Lemma convertChoice_frame (choice : Choice) :
  ch_Index (convertChoice choice) = ch_Index choice /\
  ch_FinishReason (convertChoice choice) = ch_FinishReason choice /\
  Role (ch_Message (convertChoice choice)) = Role (ch_Message choice) /\
  Content (ch_Message (convertChoice choice)) = Content (ch_Message choice) /\
  ToolCallID (ch_Message (convertChoice choice)) = ToolCallID (ch_Message choice) /\
  Name (ch_Message (convertChoice choice)) = Name (ch_Message choice).
Proof.
  unfold convertChoice.
  destruct (0 <? len (ToolCalls (ch_Message choice))).
  - rewrite fold_keepNamed. simpl. repeat split.
  - simpl. repeat split.
Qed.

Lemma convertResponse_model (reply : Completion) :
  cc_Model (convertResponse reply) = "gpt-4o".
Proof. reflexivity. Qed.

Lemma convertResponse_choices (reply : Completion) :
  length (cc_Choices (convertResponse reply)) = length (cc_Choices reply) /\
  forall i : nat,
    cc_Choices (convertResponse reply) !! i = convertChoice <$> cc_Choices reply !! i.
Proof.
  simpl. split; [apply length_fmap|]. intros i. apply list_lookup_fmap.
Qed.

(** With function names on all its tool calls, a choice comes out with
    every tool call twice. *)
Lemma convertChoice_all_named (choice : Choice) :
  forallb named (ToolCalls (ch_Message choice)) = true ->
  ToolCalls (ch_Message (convertChoice choice)) =
  (ToolCalls (ch_Message choice) ++ ToolCalls (ch_Message choice))%list.
Proof.
  intros H. rewrite convertChoice_tool_calls. f_equal.
  induction (ToolCalls (ch_Message choice)) as [|tc tcs IH]; [reflexivity|].
  simpl in *. apply andb_prop in H as [-> Htcs]. by rewrite IH.
Qed.

(** A choice without tool calls goes through unchanged. *)
Lemma convertChoice_no_tool_calls (choice : Choice) :
  ToolCalls (ch_Message choice) = [] -> convertChoice choice = choice.
Proof.
  intros H. unfold convertChoice. rewrite H.
  destruct choice; reflexivity.
Qed.

(** C1, on the upstream reply with one choice that carries the single tool
    call [call_1] of function [lookup]: the reply of the gateway has one
    choice and the model "gpt-4o", but the tool call is in it twice, where
    the claim has every tool call exactly once. *)
Theorem convertResponse_repeats_named_call :
  let tc := {| tc_ID := "call_1"; tc_Type := "function";
               tc_Function := {| fc_Name := "lookup"; fc_Arguments := "{}" |} |} in
  cc_Model (convertResponse (upstreamReply [tc])) = "gpt-4o" /\
  length (cc_Choices (convertResponse (upstreamReply [tc]))) = 1%nat /\
  toolCallsOf (convertResponse (upstreamReply [tc])) = [[tc; tc]].
Proof. repeat split. Qed.

(** C2, on the upstream reply with one choice whose only tool call has the
    empty function name: the choice is emitted, and the nameless tool call
    is still in it, where the claim has an empty tool-call list. *)
Theorem convertResponse_keeps_nameless_call :
  let tc := {| tc_ID := "call_1"; tc_Type := "function";
               tc_Function := {| fc_Name := ""; fc_Arguments := "{}" |} |} in
  length (cc_Choices (convertResponse (upstreamReply [tc]))) = 1%nat /\
  toolCallsOf (convertResponse (upstreamReply [tc])) = [[tc]] /\
  (fun c => attr "tool_calls" (marshalMessage (ch_Message c)))
    <$> cc_Choices (convertResponse (upstreamReply [tc]))
  = [Some (JArr [marshalToolCall tc])].
Proof. repeat split. Qed.

(** ** The relay loop *)

Lemma ReadBytes_ending (b : Body) :
  body_ending (ReadBytes b).2 = body_ending b.
Proof. unfold ReadBytes. destruct (cutLine (body_data b)) as [[line rest]|]; reflexivity. Qed.

(** [ReadBytes] reports an error only when no line feed is left, and the
    error is the way the body ends. *)
Lemma ReadBytes_error (b : Body) (e : ending) :
  (ReadBytes b).1.2 = Some e -> e = body_ending b.
Proof.
  unfold ReadBytes. destruct (cutLine (body_data b)) as [[line rest]|]; simpl; congruence.
Qed.

(** While the context is not cancelled and no write fails, an iteration on
    a body that ends cleanly never leaves the loop. *)
Lemma relayStep_EOF (st : Relay) :
  body_ending (rl_upstream st) = EOF ->
  exists st', relayStep false false st = Active st' /\
              body_ending (rl_upstream st') = EOF.
Proof.
  intros He. unfold relayStep.
  pose proof (ReadBytes_ending (rl_upstream st)) as Hend.
  pose proof (ReadBytes_error (rl_upstream st)) as Herr.
  destruct (ReadBytes (rl_upstream st)) as [[line err] rest]. simpl in *.
  rewrite He in Hend.
  destruct err as [e|].
  - rewrite (Herr e eq_refl), He. eauto.
  - destruct (blank line); eauto.
Qed.

Lemma relayLoop_EOF (fuel i : nat) (st : Relay) :
  body_ending (rl_upstream st) = EOF ->
  exists st', relayLoop quiet quiet fuel i st = Active st' /\
              body_ending (rl_upstream st') = EOF.
Proof.
  revert i st. induction fuel as [|fuel IH]; intros i st He; cbn [relayLoop].
  - eauto.
  - change (quiet i) with false.
    destruct (relayStep_EOF st He) as (st1 & -> & He1). apply IH, He1.
Qed.

(** A cancelled context is what ends the loop. *)
Lemma relayLoop_cancelled (ctxDone writeFails : nat -> bool) (fuel i : nat) (st : Relay) :
  ctxDone i = true ->
  relayLoop ctxDone writeFails (S fuel) i st = Closed st.
Proof. intros H. cbn [relayLoop]. rewrite H. reflexivity. Qed.

(** Once the bytes are consumed, an iteration changes nothing. *)
Lemma relayStep_drained (st : Relay) :
  rl_upstream st = {| body_data := ""; body_ending := EOF |} ->
  relayStep false false st = Active st.
Proof. intros H. unfold relayStep. rewrite H. simpl. rewrite <- H. by destruct st. Qed.

(** C3, on any upstream stream [data] that ends with a clean end of
    stream, a client that stays connected and writes that succeed: after
    any number of iterations the relay loop is still running, it has not
    returned; and on the stream of the complete line [data: a] followed by
    [data: b] without a line feed, the bytes of [data: b], which
    [ReadBytes] hands over together with [io.EOF], are never written. *)
Theorem relayLoop_spins_after_EOF :
  (forall (w : ResponseWriter) (data : string) (fuel : nat),
     exists st : Relay,
       relayLoop quiet quiet fuel 0 (startRelay w (streamOf data)) = Active st) /\
  (forall n : nat,
     relayLoop quiet quiet (2 + n) 0
       (startRelay newResponseWriter (streamOf (ln "data: a" ++ "data: b")))
     = Active {| rl_upstream := {| body_data := ""; body_ending := EOF |};
                 rl_w := Write (ln "data: a") newResponseWriter;
                 rl_cancelled := false |}).
Proof.
  split.
  - intros w data fuel.
    destruct (relayLoop_EOF fuel 0 (startRelay w (streamOf data)) eq_refl)
      as (st & H & _).
    eauto.
  - intros n. change (2 + n)%nat with (S (S n)).
    cbn [relayLoop]. change (quiet 0) with false. change (quiet 1) with false.
    change (relayStep false false
              (startRelay newResponseWriter (streamOf (ln "data: a" ++ "data: b"))))
      with (Active {| rl_upstream := {| body_data := "data: b"; body_ending := EOF |};
                      rl_w := Write (ln "data: a") newResponseWriter;
                      rl_cancelled := false |}).
    cbv iota beta.
    change (relayStep false false
              {| rl_upstream := {| body_data := "data: b"; body_ending := EOF |};
                 rl_w := Write (ln "data: a") newResponseWriter;
                 rl_cancelled := false |})
      with (Active {| rl_upstream := {| body_data := ""; body_ending := EOF |};
                      rl_w := Write (ln "data: a") newResponseWriter;
                      rl_cancelled := false |}).
    cbv iota beta.
    generalize 2%nat. induction n as [|n IH]; intros i; simpl; [reflexivity|].
    apply IH.
Qed.

(** ** The upstream request *)

Lemma lookup_put_eq (k : string) (v : json) (o : gmap string json) :
  put k v o !! k = Some v.
Proof. apply lookup_insert_eq. Qed.

Lemma lookup_put_ne (k k' : string) (v : json) (o : gmap string json) :
  k <> k' -> put k v o !! k' = o !! k'.
Proof. apply lookup_insert_ne. Qed.

Lemma lookup_putOmitEmpty_eq (e : bool) (k : string) (v : json) (o : gmap string json) :
  putOmitEmpty e k v o !! k = if e then o !! k else Some v.
Proof. unfold putOmitEmpty. destruct e; [reflexivity|apply lookup_insert_eq]. Qed.

Lemma lookup_putOmitEmpty_ne (e : bool) (k k' : string) (v : json) (o : gmap string json) :
  k <> k' -> putOmitEmpty e k v o !! k' = o !! k'.
Proof. intros H. unfold putOmitEmpty. destruct e; [reflexivity|by apply lookup_insert_ne]. Qed.

Ltac lookup_attr :=
  repeat first
    [ rewrite lookup_putOmitEmpty_eq
    | rewrite lookup_put_eq
    | rewrite lookup_putOmitEmpty_ne by discriminate
    | rewrite lookup_put_ne by discriminate
    | rewrite lookup_empty ].

(** The attribute [temperature] is emitted exactly when the client gave a
    temperature other than zero, [max_tokens] exactly when it gave a
    maximum other than zero. *)
Lemma upstreamJSON_scalars (cfg : Config) (req : ChatRequest) (j : json) :
  upstreamJSON cfg req = Some j ->
  attr "temperature" j =
    match cr_Temperature req with
    | Some t => if float64_empty t then None else Some (JNum t)
    | None => None
    end /\
  attr "max_tokens" j =
    match cr_MaxTokens req with
    | Some n => if n =? 0 then None else Some (JInt n)
    | None => None
    end.
Proof.
  unfold upstreamJSON, marshalDeepSeekRequest.
  destruct (_ && _); [discriminate|]. intros [= <-]. unfold attr, buildDeepSeekRequest.
  cbn [ds_Temperature ds_MaxTokens ds_ToolChoice ds_Tools ds_Stream ds_Messages ds_Model].
  split; lookup_attr.
  - destruct (cr_Temperature req) as [t|]; [reflexivity|].
    reflexivity.
  - destruct (cr_MaxTokens req) as [n|]; reflexivity.
Qed.

(** C4, on the request that asks for [temperature] 0 and [max_tokens] 0:
    both fields are present on the input and neither attribute is in the
    JSON object sent upstream, where the claim has them sent with their
    values. *)
Theorem upstreamJSON_omits_present_zero :
  let req := chatRequest JNull [] (Some 0%float) (Some 0) in
  cr_Temperature req = Some 0%float /\ cr_MaxTokens req = Some 0 /\
  exists j : json,
    upstreamJSON chatConfig req = Some j /\
    attr "temperature" j = None /\
    attr "max_tokens" j = None /\
    attr "stream" j = Some (JBool false).
Proof.
  cbv zeta. split; [reflexivity|]. split; [reflexivity|].
  eexists. split; [reflexivity|]. repeat split.
Qed.







(** ** The request handler *)

Lemma substring_all (s : string) : String.substring 0 (String.length s) s = s.
Proof. induction s as [|c s IH]; simpl; [reflexivity|]. by rewrite IH. Qed.

Lemma append_assoc (a b c : string) : a ++ (b ++ c) = (a ++ b) ++ c.
Proof.
  induction a as [|x a IH]; [reflexivity|].
  change (String x a ++ (b ++ c)) with (String x (a ++ (b ++ c))).
  by rewrite IH.
Qed.

Lemma prefix_append (p s : string) : String.prefix p (p ++ s) = true.
Proof.
  induction p as [|c p IH]; [by destruct s|].
  change (String c p ++ s) with (String c (p ++ s)). cbn [String.prefix].
  destruct (ascii_dec c c) as [_|Hc]; [exact IH|congruence].
Qed.

Lemma substring_append (p s : string) :
  String.substring (String.length p) (String.length (p ++ s) - String.length p) (p ++ s) = s.
Proof.
  induction p as [|c p IH].
  - change ("" ++ s) with s. cbn [String.length]. rewrite Nat.sub_0_r. apply substring_all.
  - change (String c p ++ s) with (String c (p ++ s)).
    cbn [String.length String.substring Nat.sub]. exact IH.
Qed.

Lemma TrimPrefix_append (p s : string) : strings_TrimPrefix (p ++ s) p = s.
Proof.
  unfold strings_TrimPrefix. rewrite prefix_append. apply substring_append.
Qed.

(** The handler on an authorized request, other than OPTIONS, whose body
    decodes: what is left are the tests on the path and on the model. *)
Lemma proxyHandler_parsed (E : Env) (r : Request) (chatReq : ChatRequest) :
  req_Method r <> "OPTIONS" ->
  authorized E r ->
  parsed E r chatReq ->
  proxyHandler E r =
    let w := enableCors newResponseWriter in
    if String.eqb (req_Path r) "/v1/models" then replied (handleModelsRequest E w)
    else if negb (String.prefix "/v1/" (req_Path r))
    then replied (http_Error w "Not found" 404)
    else if String.eqb (cr_Model chatReq) gpt4oModel
    then dispatch E w r chatReq
    else replied
           (http_Error w
              ("Model " ++ cr_Model chatReq ++
               " not supported. Use " ++ gpt4oModel ++ " instead.") 400).
Proof.
  intros Hm Ha (body & Hb & Hj). unfold proxyHandler.
  apply String.eqb_neq in Hm. rewrite Hm.
  unfold authorized in Ha. rewrite Ha.
  rewrite prefix_append, TrimPrefix_append, String.eqb_refl. cbn [negb].
  rewrite Hb, Hj. cbv zeta.
  destruct (String.eqb (req_Path r) "/v1/models"); cbn [andb].
  - destruct (String.eqb (req_Method r) "GET"); reflexivity.
  - reflexivity.
Qed.

(** C6: an authorized chat request (a request other than OPTIONS on a path
    under [/v1/] other than [/v1/models]) whose body decodes and whose
    model is not "gpt-4o" is answered with status 400 and a body that
    names the rejected model and the accepted one; nothing is sent
    upstream. *)
Theorem unsupported_model_rejected (E : Env) (r : Request) (chatReq : ChatRequest) :
  req_Method r <> "OPTIONS" ->
  authorized E r ->
  parsed E r chatReq ->
  String.prefix "/v1/" (req_Path r) = true ->
  req_Path r <> "/v1/models" ->
  cr_Model chatReq <> "gpt-4o" ->
  exists w : ResponseWriter,
    proxyHandler E r = {| sent := []; outcome := Replied w |} /\
    rw_Status w = Some 400 /\
    rw_Body w = ln ("Model " ++ cr_Model chatReq ++ " not supported. Use gpt-4o instead.") /\
    names (rw_Body w) (cr_Model chatReq) /\
    names (rw_Body w) "gpt-4o".
Proof.
  intros Hm Ha Hp Hpre Hpath Hmodel.
  rewrite (proxyHandler_parsed E r chatReq Hm Ha Hp). cbv zeta.
  apply String.eqb_neq in Hpath. rewrite Hpath, Hpre. cbn [negb].
  apply String.eqb_neq in Hmodel. unfold gpt4oModel. rewrite Hmodel.
  eexists. split; [reflexivity|].
  split; [reflexivity|]. split; [reflexivity|]. split.
  - exists "Model ", (ln " not supported. Use gpt-4o instead.").
    cbn [rw_Body http_Error Write]. unfold ln.
    rewrite <- !append_assoc. reflexivity.
  - exists ("Model " ++ cr_Model chatReq ++ " not supported. Use "), (ln " instead.").
    cbn [rw_Body http_Error Write]. unfold ln.
    rewrite <- !append_assoc. reflexivity.
Qed.

Lemma unsupported_model_rejected_witness :
  exists w : ResponseWriter,
    proxyHandler (gateway gpt35Request None) (post "/v1/chat/completions" "<chat>")
      = {| sent := []; outcome := Replied w |} /\
    rw_Status w = Some 400 /\
    rw_Body w = ln "Model gpt-3.5-turbo not supported. Use gpt-4o instead.".
Proof.
  destruct (unsupported_model_rejected (gateway gpt35Request None)
              (post "/v1/chat/completions" "<chat>") gpt35Request)
    as (w & Hw & Hs & Hb & _).
  - discriminate.
  - reflexivity.
  - exists "<chat>". split; reflexivity.
  - reflexivity.
  - discriminate.
  - discriminate.
  - exists w. split; [exact Hw|]. split; [exact Hs|]. exact Hb.
Defined.

(** C8, amended: an authorized request, other than OPTIONS, whose body can
    be read and decodes as a chat request, and whose path does not start
    with [/v1/], is answered with status 404; nothing is sent upstream. *)
Theorem outside_prefix_not_found (E : Env) (r : Request) (chatReq : ChatRequest) :
  req_Method r <> "OPTIONS" ->
  authorized E r ->
  parsed E r chatReq ->
  String.prefix "/v1/" (req_Path r) = false ->
  exists w : ResponseWriter,
    proxyHandler E r = {| sent := []; outcome := Replied w |} /\
    rw_Status w = Some 404 /\
    rw_Body w = ln "Not found".
Proof.
  intros Hm Ha Hp Hpre.
  rewrite (proxyHandler_parsed E r chatReq Hm Ha Hp). cbv zeta.
  destruct (String.eqb_spec (req_Path r) "/v1/models") as [Heq|_].
  - rewrite Heq in Hpre. discriminate.
  - rewrite Hpre. cbn [negb]. eexists. split; [reflexivity|]. split; reflexivity.
Qed.

Lemma outside_prefix_not_found_witness :
  exists w : ResponseWriter,
    proxyHandler (gateway gpt35Request None) (post "/health" "<chat>")
      = {| sent := []; outcome := Replied w |} /\
    rw_Status w = Some 404 /\
    rw_Body w = ln "Not found".
Proof.
  apply (outside_prefix_not_found (gateway gpt35Request None)
           (post "/health" "<chat>") gpt35Request).
  - discriminate.
  - reflexivity.
  - exists "<chat>". split; reflexivity.
  - reflexivity.
Defined.

(** C8 as stated fails on the authorized request [GET /health] with an
    empty body: the body is decoded before the path is looked at, and the
    answer is 400, not 404. *)
Lemma not_found_counterexample :
  let E := gateway gpt35Request None in
  let r := {| req_Method := "GET"; req_Path := "/health"; req_RawQuery := "";
              req_Header := bearer "sk-test";
              req_Body := {| body_data := ""; body_ending := EOF |} |} in
  req_Method r <> "OPTIONS" /\
  authorized E r /\
  String.prefix "/v1/" (req_Path r) = false /\
  exists w : ResponseWriter,
    proxyHandler E r = {| sent := []; outcome := Replied w |} /\
    rw_Status w = Some 400 /\
    rw_Body w = ln "Invalid JSON" /\
    rw_Status w <> Some 404.
Proof.
  cbv zeta. split; [discriminate|]. split; [reflexivity|]. split; [reflexivity|].
  eexists. split; [reflexivity|]. repeat split. discriminate.
Qed.

(** The loop that copies the upstream headers binds every upstream key and
    leaves the other keys of the client header alone. *)
Lemma forwardHeaders_lookup (wh src : Header) (k : string) :
  forwardHeaders wh src !! k =
  match src !! k with
  | Some v => Some v
  | None => wh !! k
  end.
Proof.
  unfold forwardHeaders.
  induction src as [|i x m Hi IH] using map_ind.
  - rewrite map_fold_empty, lookup_empty. reflexivity.
  - rewrite map_fold_insert_L; [| |exact Hi].
    + destruct (decide (i = k)) as [->|Hne].
      * rewrite !lookup_insert_eq. reflexivity.
      * rewrite !lookup_insert_ne by exact Hne. exact IH.
    + intros j1 j2 z1 z2 y Hne _ _. apply insert_insert_ne. exact Hne.
Qed.

Lemma forwardError_spec (w : ResponseWriter) (resp : Response) (respBody : string) :
  rw_Status w = None ->
  rw_Status (forwardError w resp respBody) = Some (resp_StatusCode resp) /\
  rw_Body (forwardError w resp respBody) = rw_Body w ++ respBody /\
  rw_Header (forwardError w resp respBody) !! "Content-Type" = Some ["application/json"] /\
  forall k : string,
    k <> "Content-Type" ->
    rw_Header (forwardError w resp respBody) !! k =
    match resp_Header resp !! k with
    | Some v => Some v
    | None => rw_Header w !! k
    end.
Proof.
  intros Hs. unfold forwardError, Write, WriteHeader, setHeader. cbn.
  rewrite Hs. cbn. repeat split.
  - unfold Header_Set. apply lookup_insert_eq.
  - intros k Hk. unfold Header_Set.
    rewrite lookup_insert_ne by congruence. apply forwardHeaders_lookup.
Qed.

(** C7, amended: when the upstream answers an accepted chat request with
    a status of 400 or more and its body can be read in full, the client
    gets that status and that body, byte for byte and without translation;
    [Content-Type] is set to [application/json], and every other upstream
    header is copied as it is, the headers [Content-Length],
    [Content-Encoding], [Transfer-Encoding] and [Connection] included; a
    header the upstream does not send keeps the value the handler gave it
    (the CORS headers). *)
Theorem upstream_error_forwarded
  (E : Env) (r : Request) (chatReq : ChatRequest) (j : json)
  (resp : Response) (respBody : string) :
  req_Method r <> "OPTIONS" ->
  authorized E r ->
  parsed E r chatReq ->
  String.prefix "/v1/" (req_Path r) = true ->
  req_Path r <> "/v1/models" ->
  cr_Model chatReq = "gpt-4o" ->
  upstreamJSON (activeConfig E) chatReq = Some j ->
  http_NewRequest_ok E (req_Method r) (targetURL E r) = true ->
  httpClient_Do E (proxyRequest E r chatReq (json_Encode E j)) = Some resp ->
  400 <= resp_StatusCode resp ->
  io_ReadAll (resp_Body resp) = Some respBody ->
  exists w : ResponseWriter,
    proxyHandler E r =
      {| sent := [proxyRequest E r chatReq (json_Encode E j)]; outcome := Replied w |} /\
    rw_Status w = Some (resp_StatusCode resp) /\
    rw_Body w = respBody /\
    rw_Header w !! "Content-Type" = Some ["application/json"] /\
    forall k : string,
      k <> "Content-Type" ->
      rw_Header w !! k =
      match resp_Header resp !! k with
      | Some v => Some v
      | None => rw_Header (enableCors newResponseWriter) !! k
      end.
Proof.
  intros Hm Ha Hp Hpre Hpath Hmodel Hj Hreq Hdo Hst Hbody.
  rewrite (proxyHandler_parsed E r chatReq Hm Ha Hp). cbv zeta.
  apply String.eqb_neq in Hpath. rewrite Hpath, Hpre. cbn [negb].
  rewrite Hmodel. change (String.eqb "gpt-4o" gpt4oModel) with true. cbv iota.
  unfold dispatch. rewrite Hj, Hreq. cbn [negb]. cbv zeta. rewrite Hdo.
  apply Z.leb_le in Hst. rewrite Hst, Hbody.
  eexists. split; [reflexivity|].
  destruct (forwardError_spec (enableCors newResponseWriter) resp respBody eq_refl)
    as (H1 & H2 & H3 & H4).
  split; [exact H1|]. split; [exact H2|]. split; [exact H3|exact H4].
Qed.

Lemma upstream_error_forwarded_witness :
  exists w : ResponseWriter,
    outcome (proxyHandler (gateway plainRequest (Some rateLimited))
               (post "/v1/chat/completions" "<chat>")) = Replied w /\
    rw_Status w = Some 429 /\
    rw_Body w = "<rate limited>" /\
    rw_Header w !! "Content-Type" = Some ["application/json"].
Proof.
  destruct (upstream_error_forwarded (gateway plainRequest (Some rateLimited))
              (post "/v1/chat/completions" "<chat>") plainRequest
              (default JNull (upstreamJSON chatConfig plainRequest))
              rateLimited "<rate limited>")
    as (w & Hw & Hs & Hb & Hc & _).
  - discriminate.
  - reflexivity.
  - exists "<chat>". split; reflexivity.
  - reflexivity.
  - discriminate.
  - reflexivity.
  - reflexivity.
  - reflexivity.
  - reflexivity.
  - simpl. lia.
  - reflexivity.
  - exists w. rewrite Hw. split; [reflexivity|].
    split; [exact Hs|]. split; [exact Hb|exact Hc].
Defined.

(** C7 as stated fails on the upstream reply 429 with the headers
    [Connection], [Content-Length] and [Content-Type: text/plain]: the
    status and the body reach the client unchanged, but so do the two
    hop-by-hop headers, which [copyHeaders] would skip, and the content
    type of the upstream is replaced. *)
Lemma hop_by_hop_forwarded_counterexample :
  let E := gateway plainRequest (Some rateLimited) in
  let w := writerOf (outcome (proxyHandler E (post "/v1/chat/completions" "<chat>"))) in
  400 <= resp_StatusCode rateLimited /\
  rw_Status w = Some 429 /\
  rw_Body w = "<rate limited>" /\
  skipped "Connection" = true /\
  rw_Header w !! "Connection" = Some ["keep-alive"] /\
  skipped "Content-Length" = true /\
  rw_Header w !! "Content-Length" = Some ["14"] /\
  resp_Header rateLimited !! "Content-Type" = Some ["text/plain"] /\
  rw_Header w !! "Content-Type" = Some ["application/json"].
Proof.
  cbv zeta. split; [simpl; lia|]. vm_compute. repeat split.
Qed.

(** * Further properties of the code *)

(** ** Start-up *)

Lemma scanModelFlag_last (pre : list string) (v d : string) :
  scanModelFlag (pre ++ ["-model"; v]) d = v.
Proof.
  revert d. induction pre as [|a pre IH]; intros d; [reflexivity|].
  destruct pre as [|b pre];
    [exact (IH (if String.eqb a "-model" then "-model" else d))|].
  change (scanModelFlag ((a :: b :: pre) ++ ["-model"; v]) d)
    with (scanModelFlag ((b :: pre) ++ ["-model"; v])
            (if String.eqb a "-model" then b else d)).
  apply IH.
Qed.

Lemma scanModelFlag_absent (args : list string) (d : string) :
  (forall a : string, a ∈ args -> a <> "-model") ->
  scanModelFlag args d = d.
Proof.
  revert d. induction args as [|a args IH]; intros d H; [reflexivity|].
  destruct args as [|b args]; [reflexivity|].
  change (scanModelFlag (a :: b :: args) d)
    with (scanModelFlag (b :: args) (if String.eqb a "-model" then b else d)).
  assert (Ha : String.eqb a "-model" = false).
  { apply String.eqb_neq, H. left. }
  rewrite Ha. apply IH. intros x Hx. apply H. by right.
Qed.

Lemma scanModelFlag_no_flag (args : list string) (d : string) :
  (forall a : string, a ∈ List.removelast args -> a <> "-model") ->
  scanModelFlag args d = d.
Proof.
  revert d. induction args as [|a args IH]; intros d H; [reflexivity|].
  destruct args as [|b args]; [reflexivity|].
  change (scanModelFlag (a :: b :: args) d)
    with (scanModelFlag (b :: args) (if String.eqb a "-model" then b else d)).
  change (List.removelast (a :: b :: args)) with (a :: List.removelast (b :: args)) in H.
  assert (Ha : String.eqb a "-model" = false).
  { apply String.eqb_neq, H. left. }
  rewrite Ha. apply IH. intros x Hx. apply H. by right.
Qed.

Lemma scanModelFlag_skip (pre rest : list string) (d : string) :
  rest <> [] ->
  exists d' : string, scanModelFlag (pre ++ rest) d = scanModelFlag rest d'.
Proof.
  intros Hrest. revert d. induction pre as [|a pre IH]; intros d; [by exists d|].
  destruct (pre ++ rest)%list as [|b l] eqn:Hl.
  { destruct pre; [simpl in Hl; congruence|discriminate]. }
  change (scanModelFlag ((a :: pre) ++ rest) d)
    with (scanModelFlag (a :: (pre ++ rest)%list) d).
  rewrite Hl.
  change (scanModelFlag (a :: b :: l) d)
    with (scanModelFlag (b :: l) (if String.eqb a "-model" then b else d)).
  apply IH.
Qed.

Lemma scanModelFlag_at_last_flag (pre post : list string) (v d : string) :
  (forall a : string, a ∈ List.removelast (v :: post) -> a <> "-model") ->
  scanModelFlag (pre ++ "-model" :: v :: post) d = v.
Proof.
  intros H.
  destruct (scanModelFlag_skip pre ("-model" :: v :: post) d) as [d' ->]; [discriminate|].
  change (scanModelFlag ("-model" :: v :: post) d') with (scanModelFlag (v :: post) v).
  by apply scanModelFlag_no_flag.
Qed.

(** The flag that [init] reads is the argument that follows the last
    [-model] of the command line that is followed by an argument,
    whatever comes before and after it; it is "chat" when no argument
    but the last one is [-model]. *)
Theorem init_reads_last_model_flag
  (dk ok : string) (pre post args : list string) (v : string) :
  ((forall a : string, a ∈ List.removelast (v :: post) -> a <> "-model") ->
   scanModelFlag (pre ++ "-model" :: v :: post) "chat" = v /\
   init dk ok (pre ++ "-model" :: v :: post) = init dk ok ["-model"; v]) /\
  ((forall a : string, a ∈ List.removelast args -> a <> "-model") ->
   scanModelFlag args "chat" = "chat" /\
   init dk ok args = init dk ok []).
Proof.
  split; intros H.
  - pose proof (scanModelFlag_at_last_flag pre post v "chat" H) as Hv.
    split; [exact Hv|]. unfold init. rewrite Hv. reflexivity.
  - pose proof (scanModelFlag_no_flag args "chat" H) as Hv.
    split; [exact Hv|]. unfold init. rewrite Hv. reflexivity.
Qed.

Lemma init_reads_last_model_flag_witness :
  init "sk-d" "sk-o" ["proxy"; "-model"; "openrouter"; "-model"; "coder"; "-v"]
    = Some {| endpoint := deepseekBetaEndpoint; model := deepseekCoderModel;
              apiKey := "sk-d" |} /\
  init "sk-d" "sk-o" ["proxy"; "-v"; "-model"]
    = Some {| endpoint := deepseekEndpoint; model := deepseekChatModel;
              apiKey := "sk-d" |}.
Proof.
  split.
  - etransitivity;
      [apply (proj1 (init_reads_last_model_flag "sk-d" "sk-o"
                       ["proxy"; "-model"; "openrouter"] ["-v"] [] "coder"))
      |reflexivity].
    intros a Ha. apply list_elem_of_singleton in Ha as ->. discriminate.
  - etransitivity;
      [apply (proj2 (init_reads_last_model_flag "sk-d" "sk-o" [] []
                       ["proxy"; "-v"; "-model"] ""))
      |reflexivity].
    intros a Ha. repeat (apply elem_of_cons in Ha as [->|Ha]; [discriminate|]).
    by apply elem_of_nil in Ha.
Defined.

(** When [init] returns, the active profile is one of the three profiles
    of the code, and its credential is the non-empty key of that
    provider. *)
Theorem init_profile (dk ok : string) (args : list string) (cfg : Config) :
  init dk ok args = Some cfg ->
  apiKey cfg <> "" /\
  ((endpoint cfg = deepseekBetaEndpoint /\ model cfg = deepseekCoderModel /\
    apiKey cfg = dk) \/
   (endpoint cfg = deepseekEndpoint /\ model cfg = deepseekChatModel /\
    apiKey cfg = dk) \/
   (endpoint cfg = openRouterEndpoint /\ model cfg = deepseekOpenRouterModel /\
    apiKey cfg = ok)).
Proof.
  unfold init, selectProfile.
  destruct (String.eqb dk "" && String.eqb ok ""); [discriminate|].
  destruct (String.eqb (scanModelFlag args "chat") "coder");
    [|destruct (String.eqb (scanModelFlag args "chat") "chat");
      [|destruct (String.eqb (scanModelFlag args "chat") "openrouter")]].
  3: destruct (String.eqb_spec ok "") as [|Hk].
  1, 2, 5: destruct (String.eqb_spec dk "") as [|Hk].
  all: try discriminate.
  all: intros [= <-]; simpl; split; [exact Hk|]; tauto.
Qed.

Lemma init_profile_witness :
  apiKey {| endpoint := deepseekBetaEndpoint; model := deepseekCoderModel;
            apiKey := "sk-d" |} <> "".
Proof.
  exact (proj1 (init_profile "sk-d" "" ["proxy"; "-model"; "coder"] _ eq_refl)).
Defined.

(** [init] stops the process exactly when the key of the provider that the
    flag selects is missing: the OpenRouter key for "openrouter", the
    DeepSeek key for every other flag, valid or not. *)
Theorem init_fatal_iff (dk ok : string) (args : list string) :
  init dk ok args = None <->
  (scanModelFlag args "chat" = "openrouter" /\ ok = "") \/
  (scanModelFlag args "chat" <> "openrouter" /\ dk = "").
Proof.
  unfold init, selectProfile.
  destruct (String.eqb_spec dk "") as [->|Hd];
    destruct (String.eqb_spec ok "") as [->|Ho]; cbn [andb];
    destruct (String.eqb_spec (scanModelFlag args "chat") "coder") as [Hc|Hc];
    destruct (String.eqb_spec (scanModelFlag args "chat") "chat") as [Hh|Hh];
    destruct (String.eqb_spec (scanModelFlag args "chat") "openrouter") as [Hr|Hr];
    try congruence;
    split; intros H; try discriminate; try tauto;
    try (destruct H as [[H1 H2]|[H1 H2]]; congruence).
  all: try (right; split; [congruence|reflexivity]).
  all: try (left; split; [congruence|reflexivity]).
Qed.

(** A flag that names no profile gives the start-up of the default "chat". *)
Theorem init_unknown_flag_is_chat (dk ok : string) (pre : list string) (v : string) :
  v <> "coder" -> v <> "chat" -> v <> "openrouter" ->
  init dk ok (pre ++ ["-model"; v]) = init dk ok [].
Proof.
  intros H1 H2 H3. unfold init. rewrite scanModelFlag_last.
  change (scanModelFlag [] "chat") with "chat". unfold selectProfile.
  apply String.eqb_neq in H1, H2, H3. rewrite H1, H2, H3. reflexivity.
Qed.

Lemma init_unknown_flag_is_chat_witness :
  init "sk-d" "sk-o" ["proxy"; "-model"; "gpt-4o"] = init "sk-d" "sk-o" [].
Proof.
  apply (init_unknown_flag_is_chat "sk-d" "sk-o" ["proxy"] "gpt-4o"); discriminate.
Defined.

(** ** [truncateString] *)

Lemma length_append (a b : string) :
  String.length (a ++ b) = (String.length a + String.length b)%nat.
Proof.
  induction a as [|c a IH]; [reflexivity|].
  change (String c a ++ b) with (String c (a ++ b)). simpl. by rewrite IH.
Qed.

Lemma length_substring_0 (n : nat) (s : string) :
  (n <= String.length s)%nat -> String.length (String.substring 0 n s) = n.
Proof.
  revert s. induction n as [|n IH]; intros s H.
  - by destruct s.
  - destruct s as [|c s]; simpl in *; [lia|]. rewrite IH; [reflexivity|lia].
Qed.

Lemma substring_0_append (a b : string) :
  String.substring 0 (String.length a) (a ++ b) = a.
Proof.
  induction a as [|c a IH]; [by destruct b|].
  change (String c a ++ b) with (String c (a ++ b)). simpl. by rewrite IH.
Qed.

(** For a bound that is not negative [truncateString] returns at most
    [maxLen + 3] bytes, returns a string that fits unchanged, and
    truncating its result again changes nothing. *)
Theorem truncateString_bounded (s : string) (maxLen : Z) :
  0 <= maxLen ->
  exists t : string,
    truncateString s maxLen = Some t /\
    Z.of_nat (String.length t) <= maxLen + 3 /\
    (Z.of_nat (String.length s) <= maxLen -> t = s) /\
    truncateString t maxLen = Some t.
Proof.
  intros Hm. unfold truncateString at 1.
  destruct (Z.leb_spec (Z.of_nat (String.length s)) maxLen) as [Hle|Hgt].
  - exists s. split; [reflexivity|]. split; [lia|]. split; [reflexivity|].
    unfold truncateString. apply Z.leb_le in Hle. by rewrite Hle.
  - destruct (Z.ltb_spec maxLen 0) as [Hneg|_]; [lia|].
    set (n := Z.to_nat maxLen).
    assert (Hn : (n <= String.length s)%nat) by lia.
    pose proof (length_substring_0 n s Hn) as Hlen.
    exists (String.substring 0 n s ++ "..."). split; [reflexivity|].
    assert (Hl : String.length (String.substring 0 n s ++ "...") = (n + 3)%nat).
    { rewrite length_append, Hlen. reflexivity. }
    split; [rewrite Hl; lia|]. split; [lia|].
    unfold truncateString. rewrite Hl.
    destruct (Z.leb_spec (Z.of_nat (n + 3)) maxLen) as [Hle|_]; [lia|].
    destruct (Z.ltb_spec maxLen 0) as [Hneg|_]; [lia|].
    fold n. rewrite <- Hlen at 1. rewrite substring_0_append. reflexivity.
Qed.

Lemma truncateString_bounded_witness :
  truncateString "hello world" 5 = Some "hello..." /\
  truncateString "hello..." 5 = Some "hello...".
Proof.
  destruct (truncateString_bounded "hello world" 5) as (t & Ht & _ & _ & Hi);
    [lia|].
  assert (t = "hello...") as -> by (vm_compute in Ht; congruence).
  split; [exact Ht|exact Hi].
Defined.

(** [truncateString] panics exactly on a negative bound. *)
Theorem truncateString_panics_iff (s : string) (maxLen : Z) :
  truncateString s maxLen = None <-> maxLen < 0.
Proof.
  unfold truncateString.
  destruct (Z.leb_spec (Z.of_nat (String.length s)) maxLen) as [Hle|Hgt];
    destruct (Z.ltb_spec maxLen 0) as [Hneg|Hpos]; split; intros H;
    try discriminate; try reflexivity; lia.
Qed.

(** ** The request translator *)

(** [convertToolChoice] only ever yields "", "auto" or "none". *)
Theorem convertToolChoice_range (choice : json) :
  convertToolChoice choice = "" \/
  convertToolChoice choice = "auto" \/
  convertToolChoice choice = "none".
Proof.
  destruct choice as [| | | |s| |o]; simpl; try tauto.
  - destruct (String.eqb_spec s "auto") as [->|_]; [tauto|].
    destruct (String.eqb_spec s "none") as [->|_]; tauto.
  - destruct (o !! "type") as [[| | | |t| |]|]; try tauto.
    destruct (String.eqb t "function"); tauto.
Qed.

Lemma retypeToolCall_idemp (tc : ToolCall) :
  retypeToolCall (retypeToolCall tc) = retypeToolCall tc.
Proof. reflexivity. Qed.

Lemma convertMessage_idemp (msg : Message) :
  convertMessage (convertMessage msg) = convertMessage msg.
Proof.
  destruct (String.eqb_spec (Role msg) "function") as [Hf|Hf].
  - rewrite (convertMessage_function msg Hf).
    apply convertMessage_plain; simpl; [discriminate|]. intros [H _]. discriminate.
  - destruct (String.eqb_spec (Role msg) "assistant") as [Ha|Ha].
    + destruct (ToolCalls msg) as [|tc tcs] eqn:Htcs.
      * rewrite (convertMessage_plain msg Hf); [|rewrite Htcs; tauto].
        apply convertMessage_plain; [exact Hf|rewrite Htcs; tauto].
      * assert (Hne : ToolCalls msg <> []) by (rewrite Htcs; discriminate).
        rewrite (convertMessage_assistant msg Ha Hne).
        rewrite convertMessage_assistant; simpl; [|exact Ha|rewrite Htcs; discriminate].
        unfold withToolCalls. simpl. f_equal.
        rewrite <- list_fmap_compose. apply list_fmap_ext. intros _ x _. reflexivity.
    + rewrite (convertMessage_plain msg Hf); [|tauto].
      apply convertMessage_plain; [exact Hf|tauto].
Qed.

(** Translating an already translated message list changes nothing. *)
Theorem convertMessages_idempotent (messages : list Message) :
  convertMessages (convertMessages messages) = convertMessages messages.
Proof.
  unfold convertMessages. rewrite <- list_fmap_compose.
  apply list_fmap_ext. intros _ msg _. apply convertMessage_idemp.
Qed.

(** No translated message has the role "function", and every tool call of
    a translated assistant message has the type "function". *)
Theorem convertMessages_upstream_shape (messages : list Message) (c : Message) :
  c ∈ convertMessages messages ->
  Role c <> "function" /\
  (Role c = "assistant" ->
   forall tc : ToolCall, tc ∈ ToolCalls c -> tc_Type tc = "function").
Proof.
  unfold convertMessages. intros Hc.
  apply list_elem_of_fmap in Hc as (msg & -> & _).
  destruct (String.eqb_spec (Role msg) "function") as [Hf|Hf].
  - rewrite (convertMessage_function msg Hf). simpl. split; discriminate.
  - destruct (String.eqb_spec (Role msg) "assistant") as [Ha|Ha].
    + destruct (ToolCalls msg) as [|tc0 tcs] eqn:Htcs.
      * rewrite (convertMessage_plain msg Hf); [|rewrite Htcs; tauto].
        split; [exact Hf|]. intros _ tc Htc. rewrite Htcs in Htc.
        by apply elem_of_nil in Htc.
      * assert (Hne : ToolCalls msg <> []) by (rewrite Htcs; discriminate).
        rewrite (convertMessage_assistant msg Ha Hne). simpl.
        split; [exact Hf|]. intros _ tc Htc.
        apply list_elem_of_fmap in Htc as (tc' & -> & _). reflexivity.
    + rewrite (convertMessage_plain msg Hf); [|tauto].
      split; [exact Hf|]. intros Hr. contradiction.
Qed.

Lemma convertMessages_upstream_shape_witness :
  Role (withRole (sampleMessage "function" []) "tool") <> "function".
Proof.
  refine (proj1 (convertMessages_upstream_shape sampleMessages _ _)).
  apply list_elem_of_lookup. exists 2%nat. reflexivity.
Defined.

(** The upstream request always names the model of the active profile,
    whatever model the client named, and carries the stream flag and the
    translated messages of the client. *)
Theorem upstreamJSON_core (cfg : Config) (req : ChatRequest) (j : json) :
  upstreamJSON cfg req = Some j ->
  attr "model" j = Some (JStr (model cfg)) /\
  attr "stream" j = Some (JBool (cr_Stream req)) /\
  attr "messages" j =
    Some (JArr (marshalMessage <$> convertMessages (cr_Messages req))).
Proof.
  unfold upstreamJSON, marshalDeepSeekRequest.
  destruct (_ && _); [discriminate|]. intros [= <-]. unfold attr, buildDeepSeekRequest.
  cbn [ds_Temperature ds_MaxTokens ds_ToolChoice ds_Tools ds_Stream ds_Messages ds_Model].
  repeat split; lookup_attr; reflexivity.
Qed.

Lemma upstreamJSON_core_witness :
  exists j : json,
    upstreamJSON chatConfig plainRequest = Some j /\
    attr "model" j = Some (JStr "deepseek-chat").
Proof.
  eexists. split; [reflexivity|].
  exact (proj1 (upstreamJSON_core chatConfig plainRequest _ eq_refl)).
Defined.

(** Tools take precedence over legacy functions: with at least one tool
    the upstream [tools] are the tools of the client, in order, and the
    functions are ignored; with no tool and at least one function, every
    function is wrapped into a tool of type "function", in order; with
    neither, no [tools] attribute is sent. *)
Theorem upstreamJSON_tools (cfg : Config) (req : ChatRequest) (j : json) :
  upstreamJSON cfg req = Some j ->
  (cr_Tools req <> [] ->
   attr "tools" j = Some (JArr (marshalTool <$> cr_Tools req))) /\
  (cr_Tools req = [] -> cr_Functions req <> [] ->
   attr "tools" j =
     Some (JArr ((fun fn => marshalTool {| tool_Type := "function"; tool_Function := fn |})
                   <$> cr_Functions req))) /\
  (cr_Tools req = [] -> cr_Functions req = [] -> attr "tools" j = None).
Proof.
  unfold upstreamJSON, marshalDeepSeekRequest.
  destruct (_ && _); [discriminate|]. intros [= <-]. unfold attr, buildDeepSeekRequest.
  cbn [ds_Temperature ds_MaxTokens ds_ToolChoice ds_Tools ds_Stream ds_Messages ds_Model].
  split; [|split].
  - intros Ht. pose proof Ht as Hl. apply len_pos_iff in Hl. rewrite Hl.
    lookup_attr.
    destruct (len (cr_Tools req) =? 0) eqn:Hz; [|reflexivity].
    apply Z.eqb_eq in Hz. apply Z.ltb_lt in Hl. lia.
  - intros -> Hf. change (0 <? len []) with false. cbv iota.
    pose proof Hf as Hl. apply len_pos_iff in Hl. rewrite Hl.
    lookup_attr.
    assert (Hz : (len (liftFunction <$> cr_Functions req) =? 0) = false).
    { apply Z.eqb_neq. apply Z.ltb_lt in Hl. unfold len in *.
      rewrite length_fmap. lia. }
    rewrite Hz. rewrite <- list_fmap_compose. reflexivity.
  - intros -> ->. change (0 <? len []) with false. cbv iota.
    lookup_attr. reflexivity.
Qed.

Lemma upstreamJSON_tools_witness :
  exists j : json,
    upstreamJSON chatConfig (chatRequest JNull [weatherTool] None None) = Some j /\
    attr "tools" j = Some (JArr [marshalTool weatherTool]).
Proof.
  eexists. split; [reflexivity|].
  refine (proj1 (upstreamJSON_tools chatConfig
                   (chatRequest JNull [weatherTool] None None) _ eq_refl) _).
  discriminate.
Defined.

(** ** Credentials *)

Lemma prefix_split (p s : string) :
  String.prefix p s = true -> s = p ++ strings_TrimPrefix s p.
Proof.
  intros H. unfold strings_TrimPrefix. rewrite H. revert s H.
  induction p as [|c p IH]; intros s H.
  - change ("" ++ ?x) with x. cbn [String.length]. rewrite Nat.sub_0_r.
    symmetry. apply substring_all.
  - destruct s as [|d s]; [discriminate|]. cbn [String.prefix] in H.
    destruct (ascii_dec c d) as [->|_]; [|discriminate].
    change (String d p ++ ?x) with (String d (p ++ x)).
    cbn [String.length String.substring Nat.sub]. f_equal. apply IH, H.
Qed.

(** The two tests of [proxyHandler] on the [Authorization] header pass
    exactly for the header "Bearer " followed by the configured key. *)
Lemma authorized_tests (E : Env) (r : Request) :
  let authHeader := Header_Get (req_Header r) "Authorization" in
  String.prefix "Bearer " authHeader &&
  String.eqb (strings_TrimPrefix authHeader "Bearer ") (apiKey (activeConfig E)) = true
  <-> authorized E r.
Proof.
  cbv zeta. unfold authorized. split.
  - intros H. apply andb_prop in H as [Hp Hk]. apply String.eqb_eq in Hk.
    rewrite (prefix_split _ _ Hp) at 1. by rewrite Hk.
  - intros ->. rewrite prefix_append, TrimPrefix_append, String.eqb_refl. reflexivity.
Qed.

(** A request, other than OPTIONS, that does not carry the configured key
    as bearer credential is answered with status 401, and nothing is sent
    upstream. *)
Theorem unauthorized_rejected (E : Env) (r : Request) :
  req_Method r <> "OPTIONS" ->
  ~ authorized E r ->
  exists w : ResponseWriter,
    proxyHandler E r = {| sent := []; outcome := Replied w |} /\
    rw_Status w = Some 401 /\
    (rw_Body w = ln "Missing or invalid Authorization header" \/
     rw_Body w = ln "Invalid API key").
Proof.
  intros Hm Ha. unfold proxyHandler.
  apply String.eqb_neq in Hm. rewrite Hm.
  rewrite <- authorized_tests in Ha. cbv zeta in Ha.
  destruct (String.prefix "Bearer " (Header_Get (req_Header r) "Authorization"));
    cbn [negb andb] in *.
  - destruct (String.eqb _ (apiKey (activeConfig E))); [congruence|]. cbn [negb].
    eexists. split; [reflexivity|]. split; [reflexivity|]. by right.
  - eexists. split; [reflexivity|]. split; [reflexivity|]. by left.
Qed.

Lemma unauthorized_rejected_witness :
  exists w : ResponseWriter,
    proxyHandler (gateway plainRequest None)
      {| req_Method := "POST"; req_Path := "/v1/chat/completions"; req_RawQuery := "";
         req_Header := bearer "sk-other";
         req_Body := {| body_data := "<chat>"; body_ending := EOF |} |}
      = {| sent := []; outcome := Replied w |} /\
    rw_Status w = Some 401.
Proof.
  destruct (unauthorized_rejected (gateway plainRequest None)
              {| req_Method := "POST"; req_Path := "/v1/chat/completions";
                 req_RawQuery := ""; req_Header := bearer "sk-other";
                 req_Body := {| body_data := "<chat>"; body_ending := EOF |} |})
    as (w & Hw & Hs & _).
  - discriminate.
  - unfold authorized. vm_compute. discriminate.
  - exists w. split; [exact Hw|exact Hs].
Defined.

(** ** The header of the upstream request *)

Lemma fold_Header_Add_lookup (k : string) (vv : list string) (dst : Header) (k' : string) :
  fold_left (fun dst v => Header_Add k v dst) vv dst !! k' =
  if decide (k = k')
  then match vv with
       | [] => dst !! k
       | _ => Some (default [] (dst !! k) ++ vv)%list
       end
  else dst !! k'.
Proof.
  revert dst. induction vv as [|v vv IH]; intros dst; simpl.
  - by destruct (decide (k = k')) as [<-|].
  - rewrite IH. unfold Header_Add. destruct (decide (k = k')) as [<-|Hne].
    + rewrite lookup_insert_eq. simpl.
      destruct vv; [reflexivity|]. by rewrite <- app_assoc.
    + by rewrite lookup_insert_ne.
Qed.

(** A loop over a map whose iteration for the key [k] only changes the
    binding of [k], as a function [g] of the old binding. *)
Lemma map_fold_keywise
  (f : string -> list string -> Header -> Header)
  (g : string -> list string -> option (list string) -> option (list string)) :
  (forall k vv dst k',
     f k vv dst !! k' = if decide (k = k') then g k vv (dst !! k) else dst !! k') ->
  forall (dst src : Header) (k : string),
    map_fold f dst src !! k =
    match src !! k with
    | Some vv => g k vv (dst !! k)
    | None => dst !! k
    end.
Proof.
  intros Hf dst src k.
  induction src as [|i x m Hi IH] using map_ind.
  - rewrite map_fold_empty, lookup_empty. reflexivity.
  - rewrite map_fold_insert_L; [| |exact Hi].
    + rewrite Hf. destruct (decide (i = k)) as [->|Hne].
      * rewrite lookup_insert_eq, IH, Hi. reflexivity.
      * rewrite lookup_insert_ne by exact Hne. exact IH.
    + intros j1 j2 z1 z2 y Hne _ _. apply map_eq. intros k'.
      rewrite !Hf.
      destruct (decide (j1 = k')) as [E1|H1]; destruct (decide (j2 = k')) as [E2|H2];
        try congruence; rewrite ?Hf;
        repeat (destruct (decide _); try congruence).
Qed.

Lemma copyHeaders_lookup (dst src : Header) (k : string) :
  copyHeaders dst src !! k =
  match src !! k with
  | Some vv =>
      if skipped k then dst !! k
      else match vv with
           | [] => dst !! k
           | _ => Some (default [] (dst !! k) ++ vv)%list
           end
  | None => dst !! k
  end.
Proof.
  unfold copyHeaders.
  apply (map_fold_keywise _
           (fun k vv o => if skipped k then o
                          else match vv with
                               | [] => o
                               | _ => Some (default [] o ++ vv)%list
                               end)).
  intros k0 vv d k'. destruct (skipped k0); cbn [negb].
  - by destruct (decide (k0 = k')) as [<-|].
  - apply fold_Header_Add_lookup.
Qed.

Lemma skipped_cases (k : string) :
  skipped k = true ->
  k = "Content-Length" \/ k = "Content-Encoding" \/
  k = "Transfer-Encoding" \/ k = "Connection".
Proof.
  unfold skipped, skipHeaders. cbn [existsb].
  destruct (String.eqb_spec k "Content-Length"); [tauto|].
  destruct (String.eqb_spec k "Content-Encoding"); [tauto|].
  destruct (String.eqb_spec k "Transfer-Encoding"); [tauto|].
  destruct (String.eqb_spec k "Connection"); [tauto|]. discriminate.
Qed.

(** The keys that [proxyHandler] sets itself on the upstream request. *)
Lemma proxyHeader_other (E : Env) (r : Request) (chatReq : ChatRequest) (k : string) :
  k <> "Authorization" -> k <> "Content-Type" -> k <> "X-Title" ->
  k <> "Http-Referer" -> k <> "Accept" -> k <> "Accept-Language" ->
  proxyHeader E r chatReq !! k = copyHeaders ∅ (req_Header r) !! k.
Proof.
  intros H1 H2 H3 H4 H5 H6. unfold proxyHeader. cbv zeta. unfold Header_Set.
  repeat case_match; rewrite ?lookup_insert_ne by congruence; reflexivity.
Qed.

(** The upstream request never carries the length, encoding and
    connection headers of the client, and every other header of the client
    that the handler does not set itself goes upstream with its values. *)
Theorem proxyHeader_filters (E : Env) (r : Request) (chatReq : ChatRequest) :
  (forall k : string, skipped k = true -> proxyHeader E r chatReq !! k = None) /\
  (forall (k : string) (v : string) (vv : list string),
     req_Header r !! k = Some (v :: vv) ->
     skipped k = false ->
     k <> "Authorization" -> k <> "Content-Type" -> k <> "X-Title" ->
     k <> "Http-Referer" -> k <> "Accept" -> k <> "Accept-Language" ->
     proxyHeader E r chatReq !! k = Some (v :: vv)).
Proof.
  split.
  - intros k Hk.
    rewrite proxyHeader_other, copyHeaders_lookup, Hk, lookup_empty;
      [by destruct (req_Header r !! k)|..];
      destruct (skipped_cases k Hk) as [-> | [-> | [-> | ->]]]; discriminate.
  - intros k v vv Hk Hs H1 H2 H3 H4 H5 H6.
    rewrite proxyHeader_other by assumption.
    rewrite copyHeaders_lookup, Hk, Hs, lookup_empty. reflexivity.
Qed.

Lemma proxyHeader_filters_witness :
  proxyHeader (gateway plainRequest None)
    {| req_Method := "POST"; req_Path := "/v1/chat/completions"; req_RawQuery := "";
       req_Header := {[ "Content-Length" := ["42"]; "User-Agent" := ["cursor"] ]};
       req_Body := {| body_data := "<chat>"; body_ending := EOF |} |}
    plainRequest !! "Content-Length" = None.
Proof.
  apply (proj1 (proxyHeader_filters (gateway plainRequest None) _ plainRequest)).
  reflexivity.
Defined.

(** The upstream request carries the credential of the active profile in
    place of whatever the client sent, the JSON content type, and for a
    streaming request the event-stream accept header. *)
Theorem proxyHeader_credential (E : Env) (r : Request) (chatReq : ChatRequest) :
  proxyHeader E r chatReq !! "Authorization"
    = Some ["Bearer " ++ apiKey (activeConfig E)] /\
  proxyHeader E r chatReq !! "Content-Type" = Some ["application/json"] /\
  (cr_Stream chatReq = true ->
   proxyHeader E r chatReq !! "Accept" = Some ["text/event-stream"]).
Proof.
  unfold proxyHeader. cbv zeta. unfold Header_Set.
  repeat split.
  - repeat case_match; rewrite ?lookup_insert_ne by discriminate;
      apply lookup_insert_eq.
  - repeat case_match; rewrite ?lookup_insert_ne by discriminate;
      apply lookup_insert_eq.
  - intros ->. repeat case_match; rewrite ?lookup_insert_ne by discriminate;
      apply lookup_insert_eq.
Qed.

Lemma proxyHeader_credential_witness :
  proxyHeader (gateway plainRequest None) (post "/v1/chat/completions" "<chat>")
    {| cr_Model := "gpt-4o"; cr_Messages := [userMessage]; cr_Stream := true;
       cr_Functions := []; cr_Tools := []; cr_ToolChoice := JNull;
       cr_Temperature := None; cr_MaxTokens := None |} !! "Accept"
  = Some ["text/event-stream"].
Proof.
  apply (proj2 (proj2 (proxyHeader_credential (gateway plainRequest None)
                         (post "/v1/chat/completions" "<chat>") _))).
  reflexivity.
Defined.

(** ** The handler as a whole *)

Lemma proxyHandler_accepted (E : Env) (r : Request) (chatReq : ChatRequest) :
  accepted E r chatReq ->
  proxyHandler E r = dispatch E (enableCors newResponseWriter) r chatReq.
Proof.
  intros (Hm & Ha & Hp & Hpre & Hpath & Hmodel).
  rewrite (proxyHandler_parsed E r chatReq Hm Ha Hp). cbv zeta.
  apply String.eqb_neq in Hpath. rewrite Hpath, Hpre. cbn [negb].
  rewrite Hmodel. reflexivity.
Qed.

(** Every inbound request leads to at most one upstream request, and one
    is only sent for an accepted chat request whose translation could be
    serialized; it is then the translated request. *)
Theorem upstream_request_guarded (E : Env) (r : Request) :
  sent (proxyHandler E r) = [] \/
  exists (chatReq : ChatRequest) (j : json),
    accepted E r chatReq /\
    upstreamJSON (activeConfig E) chatReq = Some j /\
    sent (proxyHandler E r) = [proxyRequest E r chatReq (json_Encode E j)].
Proof.
  unfold proxyHandler.
  destruct (String.eqb_spec (req_Method r) "OPTIONS") as [|Hm]; [by left|].
  destruct (String.prefix "Bearer " (Header_Get (req_Header r) "Authorization"))
    eqn:Hpre; cbn [negb]; [|by left].
  cbv zeta.
  destruct (String.eqb (strings_TrimPrefix _ "Bearer ") (apiKey (activeConfig E)))
    eqn:Hkey; cbn [negb]; [|by left].
  assert (Ha : authorized E r).
  { apply authorized_tests. cbv zeta. by rewrite Hpre, Hkey. }
  destruct (String.eqb_spec (req_Path r) "/v1/models") as [|Hpath]; cbn [andb].
  { destruct (String.eqb (req_Method r) "GET"); [by left|].
    destruct (io_ReadAll (req_Body r)); [|by left].
    destruct (json_Unmarshal_ChatRequest E s); by left. }
  destruct (io_ReadAll (req_Body r)) as [body|] eqn:Hbody; [|by left].
  destruct (json_Unmarshal_ChatRequest E body) as [chatReq|] eqn:Hjson; [|by left].
  destruct (String.prefix "/v1/" (req_Path r)) eqn:Hv1; cbn [negb]; [|by left].
  destruct (String.eqb_spec (cr_Model chatReq) gpt4oModel) as [Hmodel|]; [|by left].
  unfold dispatch.
  destruct (upstreamJSON (activeConfig E) chatReq) as [j|] eqn:Hj; [|by left].
  destruct (http_NewRequest_ok E (req_Method r) (targetURL E r)); cbn [negb]; [|by left].
  right. exists chatReq, j. split; [|split; [exact Hj|]].
  - repeat split; try assumption. exists body. by split.
  - cbv zeta. by destruct (httpClient_Do E _).
Qed.

Lemma bound_setHeader (k k' v : string) (w : ResponseWriter) :
  is_Some (rw_Header w !! k) -> is_Some (rw_Header (setHeader k' v w) !! k).
Proof.
  intros H. unfold setHeader, Header_Set. simpl.
  destruct (decide (k' = k)) as [->|Hne].
  - rewrite lookup_insert_eq. eauto.
  - by rewrite lookup_insert_ne.
Qed.

Lemma header_WriteHeader (code : Z) (w : ResponseWriter) :
  rw_Header (WriteHeader code w) = rw_Header w.
Proof. unfold WriteHeader. by destruct (rw_Status w). Qed.

Lemma header_Write (b : string) (w : ResponseWriter) :
  rw_Header (Write b w) = rw_Header w.
Proof. unfold Write. simpl. apply header_WriteHeader. Qed.

Lemma bound_http_Error (k msg : string) (code : Z) (w : ResponseWriter) :
  is_Some (rw_Header w !! k) -> is_Some (rw_Header (http_Error w msg code) !! k).
Proof.
  intros H. unfold http_Error. rewrite header_Write, header_WriteHeader.
  by do 2 apply bound_setHeader.
Qed.

Lemma bound_forwardError (k : string) (w : ResponseWriter) (resp : Response) (b : string) :
  is_Some (rw_Header w !! k) -> is_Some (rw_Header (forwardError w resp b) !! k).
Proof.
  intros H. unfold forwardError. rewrite header_Write, header_WriteHeader.
  apply bound_setHeader. simpl. rewrite forwardHeaders_lookup.
  destruct (resp_Header resp !! k); eauto.
Qed.

Lemma bound_handleRegularResponse (E : Env) (k : string) (w : ResponseWriter) (resp : Response) :
  is_Some (rw_Header w !! k) ->
  is_Some (rw_Header (handleRegularResponse E w resp) !! k).
Proof.
  intros H. unfold handleRegularResponse.
  destruct (readResponse resp); [|by apply bound_http_Error].
  destruct (json_Unmarshal_Completion E s); [|by rewrite header_WriteHeader].
  cbv zeta. unfold marshalCompletion.
  rewrite header_Write, header_WriteHeader. by apply bound_setHeader.
Qed.

(** Whatever the handler answers, the headers that [enableCors] sets are
    on the reply (an upstream error reply may bring its own value for
    one of them). *)
Theorem cors_headers_on_every_reply (E : Env) (r : Request) (k : string) :
  is_Some (rw_Header (enableCors newResponseWriter) !! k) ->
  is_Some (rw_Header (writerOf (outcome (proxyHandler E r))) !! k).
Proof.
  unfold proxyHandler, dispatch, replied, handleModelsRequest, startStreaming.
  generalize (enableCors newResponseWriter). intros w H.
  repeat case_match; cbn [outcome writerOf];
    rewrite ?header_Write, ?header_WriteHeader;
    repeat first [ assumption
                 | apply bound_http_Error
                 | apply bound_forwardError
                 | apply bound_handleRegularResponse
                 | apply bound_setHeader ].
Qed.

Lemma cors_headers_on_every_reply_witness :
  is_Some (rw_Header (writerOf (outcome
             (proxyHandler (gateway plainRequest (Some rateLimited))
                (post "/v1/chat/completions" "<chat>"))))
           !! "Access-Control-Allow-Origin").
Proof.
  apply cors_headers_on_every_reply. vm_compute. eauto.
Defined.

(** ** The paths of the handler *)

(** The models list is served to an authorized [GET /v1/models] without
    looking at the body, and to any other authorized request on that path
    whose body decodes; it has the two entries "gpt-4o" and
    "deepseek-chat", and nothing is sent upstream. *)
Theorem models_list_served (E : Env) (r : Request) :
  req_Method r <> "OPTIONS" ->
  authorized E r ->
  req_Path r = "/v1/models" ->
  req_Method r = "GET" \/ (exists chatReq, parsed E r chatReq) ->
  exists (w : ResponseWriter) (j m1 m2 : json),
    proxyHandler E r = {| sent := []; outcome := Replied w |} /\
    rw_Status w = Some 200 /\
    rw_Header w !! "Content-Type" = Some ["application/json"] /\
    rw_Body w = ln (json_Encode E j) /\
    attr "object" j = Some (JStr "list") /\
    attr "data" j = Some (JArr [m1; m2]) /\
    attr "id" m1 = Some (JStr "gpt-4o") /\
    attr "id" m2 = Some (JStr "deepseek-chat").
Proof.
  intros Hm Ha Hpath Hcase.
  assert (Hgoal : proxyHandler E r =
                  replied (handleModelsRequest E (enableCors newResponseWriter))).
  { destruct Hcase as [Hget|[chatReq Hp]].
    - unfold proxyHandler. apply String.eqb_neq in Hm. rewrite Hm.
      unfold authorized in Ha. rewrite Ha.
      rewrite prefix_append, TrimPrefix_append, String.eqb_refl. cbn [negb].
      rewrite Hpath, Hget. reflexivity.
    - rewrite (proxyHandler_parsed E r chatReq Hm Ha Hp). cbv zeta.
      rewrite Hpath. reflexivity. }
  rewrite Hgoal. do 4 eexists. split; [reflexivity|]. repeat split.
Qed.

Lemma models_list_served_witness :
  exists w : ResponseWriter,
    proxyHandler (gateway plainRequest None)
      {| req_Method := "GET"; req_Path := "/v1/models"; req_RawQuery := "";
         req_Header := bearer "sk-test";
         req_Body := {| body_data := ""; body_ending := ReadError |} |}
      = {| sent := []; outcome := Replied w |} /\
    rw_Status w = Some 200.
Proof.
  destruct (models_list_served (gateway plainRequest None)
              {| req_Method := "GET"; req_Path := "/v1/models"; req_RawQuery := "";
                 req_Header := bearer "sk-test";
                 req_Body := {| body_data := ""; body_ending := ReadError |} |})
    as (w & j & m1 & m2 & Hw & Hs & _).
  - discriminate.
  - reflexivity.
  - reflexivity.
  - by left.
  - exists w. split; [exact Hw|exact Hs].
Defined.

(** An authorized request, other than OPTIONS and other than
    [GET /v1/models], whose body cannot be read or does not decode is
    answered with status 400 on any path, and nothing is sent upstream. *)
Theorem bad_body_rejected (E : Env) (r : Request) :
  req_Method r <> "OPTIONS" ->
  authorized E r ->
  ~ (req_Path r = "/v1/models" /\ req_Method r = "GET") ->
  io_ReadAll (req_Body r) = None \/
  (exists body, io_ReadAll (req_Body r) = Some body /\
                json_Unmarshal_ChatRequest E body = None) ->
  exists w : ResponseWriter,
    proxyHandler E r = {| sent := []; outcome := Replied w |} /\
    rw_Status w = Some 400 /\
    (rw_Body w = ln "Error reading request" \/ rw_Body w = ln "Invalid JSON").
Proof.
  intros Hm Ha Hnot Hbody. unfold proxyHandler.
  apply String.eqb_neq in Hm. rewrite Hm.
  unfold authorized in Ha. rewrite Ha.
  rewrite prefix_append, TrimPrefix_append, String.eqb_refl. cbn [negb].
  assert (Hsel : String.eqb (req_Path r) "/v1/models" && String.eqb (req_Method r) "GET"
                 = false).
  { destruct (String.eqb_spec (req_Path r) "/v1/models");
      destruct (String.eqb_spec (req_Method r) "GET"); try reflexivity. tauto. }
  rewrite Hsel.
  destruct Hbody as [->|(body & -> & ->)];
    (eexists; split; [reflexivity|]; split; [reflexivity|]); [by left|by right].
Qed.

Lemma bad_body_rejected_witness :
  exists w : ResponseWriter,
    proxyHandler (gateway plainRequest None) (post "/v1/chat/completions" "")
      = {| sent := []; outcome := Replied w |} /\
    rw_Status w = Some 400.
Proof.
  destruct (bad_body_rejected (gateway plainRequest None)
              (post "/v1/chat/completions" "")) as (w & Hw & Hs & _).
  - discriminate.
  - reflexivity.
  - intros [H _]. discriminate.
  - right. exists "". split; reflexivity.
  - exists w. split; [exact Hw|exact Hs].
Defined.

(** When the translated request cannot be serialized or [http.NewRequest]
    refuses the target, an accepted chat request is answered with status
    500 and nothing is sent upstream. *)
Theorem request_not_created (E : Env) (r : Request) (chatReq : ChatRequest) :
  accepted E r chatReq ->
  upstreamJSON (activeConfig E) chatReq = None \/
  http_NewRequest_ok E (req_Method r) (targetURL E r) = false ->
  exists w : ResponseWriter,
    proxyHandler E r = {| sent := []; outcome := Replied w |} /\
    rw_Status w = Some 500.
Proof.
  intros Hacc Hcase. rewrite (proxyHandler_accepted E r chatReq Hacc). unfold dispatch.
  destruct Hcase as [->|Hnew].
  - eexists. split; reflexivity.
  - destruct (upstreamJSON (activeConfig E) chatReq);
      [rewrite Hnew|]; eexists; split; reflexivity.
Qed.

Lemma request_not_created_witness :
  exists w : ResponseWriter,
    proxyHandler (gateway (chatRequest JNull [] (Some nan) None) None)
      (post "/v1/chat/completions" "<chat>")
      = {| sent := []; outcome := Replied w |} /\
    rw_Status w = Some 500.
Proof.
  apply (request_not_created (gateway (chatRequest JNull [] (Some nan) None) None)
           (post "/v1/chat/completions" "<chat>")
           (chatRequest JNull [] (Some nan) None)).
  - repeat split; try discriminate. exists "<chat>". split; reflexivity.
  - left. reflexivity.
Defined.

(** When the upstream cannot be reached, an accepted chat request is
    answered with status 502 after the one attempt. *)
Theorem upstream_unreachable (E : Env) (r : Request) (chatReq : ChatRequest) (j : json) :
  accepted E r chatReq ->
  upstreamJSON (activeConfig E) chatReq = Some j ->
  http_NewRequest_ok E (req_Method r) (targetURL E r) = true ->
  httpClient_Do E (proxyRequest E r chatReq (json_Encode E j)) = None ->
  exists w : ResponseWriter,
    proxyHandler E r =
      {| sent := [proxyRequest E r chatReq (json_Encode E j)]; outcome := Replied w |} /\
    rw_Status w = Some 502 /\
    rw_Body w = ln "Error forwarding request".
Proof.
  intros Hacc Hj Hnew Hdo. rewrite (proxyHandler_accepted E r chatReq Hacc).
  unfold dispatch. rewrite Hj, Hnew. cbn [negb]. cbv zeta. rewrite Hdo.
  eexists. split; [reflexivity|]. split; reflexivity.
Qed.

Lemma upstream_unreachable_witness :
  exists w : ResponseWriter,
    outcome (proxyHandler (gateway plainRequest None)
               (post "/v1/chat/completions" "<chat>")) = Replied w /\
    rw_Status w = Some 502.
Proof.
  destruct (upstream_unreachable (gateway plainRequest None)
              (post "/v1/chat/completions" "<chat>") plainRequest
              (default JNull (upstreamJSON chatConfig plainRequest)))
    as (w & Hw & Hs & _).
  - repeat split; try discriminate. exists "<chat>". split; reflexivity.
  - reflexivity.
  - reflexivity.
  - reflexivity.
  - exists w. rewrite Hw. split; [reflexivity|exact Hs].
Defined.

(** A non-streaming request whose upstream reply has a status below 400
    and a body that decodes gets that status, the JSON content type and
    the serialized converted reply, whose model is "gpt-4o" and whose
    object tag is "chat.completion", with the id, the creation time and
    the usage of the upstream. *)
Theorem regular_reply_translated
  (E : Env) (r : Request) (chatReq : ChatRequest) (j : json)
  (resp : Response) (body : string) (reply : Completion) :
  accepted E r chatReq ->
  cr_Stream chatReq = false ->
  upstreamJSON (activeConfig E) chatReq = Some j ->
  http_NewRequest_ok E (req_Method r) (targetURL E r) = true ->
  httpClient_Do E (proxyRequest E r chatReq (json_Encode E j)) = Some resp ->
  resp_StatusCode resp < 400 ->
  io_ReadAll (resp_Body resp) = Some body ->
  json_Unmarshal_Completion E body = Some reply ->
  exists (w : ResponseWriter) (out : json),
    outcome (proxyHandler E r) = Replied w /\
    rw_Status w = Some (resp_StatusCode resp) /\
    rw_Header w !! "Content-Type" = Some ["application/json"] /\
    rw_Body w = json_Encode E out /\
    attr "model" out = Some (JStr "gpt-4o") /\
    attr "object" out = Some (JStr "chat.completion") /\
    attr "id" out = Some (JStr (cc_ID reply)) /\
    attr "created" out = Some (JInt (cc_Created reply)) /\
    attr "usage" out = Some (marshalUsage (cc_Usage reply)) /\
    attr "choices" out =
      Some (JArr (marshalChoice <$> (convertChoice <$> cc_Choices reply))).
Proof.
  intros Hacc Hs Hj Hnew Hdo Hst Hbody Hreply.
  rewrite (proxyHandler_accepted E r chatReq Hacc).
  unfold dispatch. rewrite Hj, Hnew. cbn [negb]. cbv zeta. rewrite Hdo.
  cbn [outcome]. apply Z.leb_gt in Hst. rewrite Hst, Hs.
  unfold handleRegularResponse, readResponse. rewrite Hbody, Hreply. cbv zeta.
  unfold marshalCompletion.
  do 2 eexists. split; [reflexivity|]. repeat split.
Qed.

Lemma regular_reply_translated_witness :
  exists w : ResponseWriter,
    outcome (proxyHandler
               {| activeConfig := chatConfig; time_Now := 0;
                  json_Unmarshal_ChatRequest := fun _ => Some plainRequest;
                  json_Unmarshal_Completion := fun _ => Some (upstreamReply []);
                  json_Encode := fun _ => "<json>";
                  http_NewRequest_ok := fun _ _ => true;
                  httpClient_Do := fun _ => Some (okReply "<reply>") |}
               (post "/v1/chat/completions" "<chat>")) = Replied w /\
    rw_Status w = Some 200.
Proof.
  destruct (regular_reply_translated
              {| activeConfig := chatConfig; time_Now := 0;
                 json_Unmarshal_ChatRequest := fun _ => Some plainRequest;
                 json_Unmarshal_Completion := fun _ => Some (upstreamReply []);
                 json_Encode := fun _ => "<json>";
                 http_NewRequest_ok := fun _ _ => true;
                 httpClient_Do := fun _ => Some (okReply "<reply>") |}
              (post "/v1/chat/completions" "<chat>") plainRequest
              (default JNull (upstreamJSON chatConfig plainRequest))
              (okReply "<reply>") "<reply>" (upstreamReply []))
    as (w & out & Hw & Hs & _).
  - repeat split; try discriminate. exists "<chat>". split; reflexivity.
  - reflexivity.
  - reflexivity.
  - reflexivity.
  - reflexivity.
  - simpl. lia.
  - reflexivity.
  - reflexivity.
  - exists w. split; [exact Hw|exact Hs].
Defined.

(** When the body of a successful upstream reply cannot be read, the
    client gets status 500 with a message; when it does not decode, the
    client gets status 500 with an empty body. The status of the upstream
    is not passed on in either case. *)
Theorem regular_reply_failures (E : Env) (w : ResponseWriter) (resp : Response) :
  rw_Status w = None ->
  rw_Body w = "" ->
  (io_ReadAll (resp_Body resp) = None ->
   rw_Status (handleRegularResponse E w resp) = Some 500 /\
   rw_Body (handleRegularResponse E w resp) = ln "Error reading response from upstream") /\
  (forall body : string,
     io_ReadAll (resp_Body resp) = Some body ->
     json_Unmarshal_Completion E body = None ->
     rw_Status (handleRegularResponse E w resp) = Some 500 /\
     rw_Body (handleRegularResponse E w resp) = "").
Proof.
  intros Hs Hb. unfold handleRegularResponse, readResponse. split.
  - intros ->. unfold http_Error, Write, WriteHeader. simpl. rewrite Hs, Hb. simpl.
    split; reflexivity.
  - intros body -> ->. unfold WriteHeader. rewrite Hs. simpl. split; [reflexivity|exact Hb].
Qed.

Lemma regular_reply_failures_witness :
  rw_Status (handleRegularResponse (gateway plainRequest None)
               (enableCors newResponseWriter) (okReply "not json")) = Some 500 /\
  rw_Body (handleRegularResponse (gateway plainRequest None)
             (enableCors newResponseWriter) (okReply "not json")) = "".
Proof.
  apply (proj2 (regular_reply_failures (gateway plainRequest None)
                  (enableCors newResponseWriter) (okReply "not json")
                  eq_refl eq_refl) "not json"); reflexivity.
Defined.

(** A streaming request whose upstream reply has a status below 400 is
    handed to the relay with that status written, the event-stream
    headers set and no byte written yet; the headers of the upstream are
    not copied. *)
Theorem streaming_reply_started
  (E : Env) (r : Request) (chatReq : ChatRequest) (j : json) (resp : Response) :
  accepted E r chatReq ->
  cr_Stream chatReq = true ->
  upstreamJSON (activeConfig E) chatReq = Some j ->
  http_NewRequest_ok E (req_Method r) (targetURL E r) = true ->
  httpClient_Do E (proxyRequest E r chatReq (json_Encode E j)) = Some resp ->
  resp_StatusCode resp < 400 ->
  exists w : ResponseWriter,
    outcome (proxyHandler E r) = Relaying w resp /\
    rw_Status w = Some (resp_StatusCode resp) /\
    rw_Body w = "" /\
    rw_Header w !! "Content-Type" = Some ["text/event-stream"] /\
    rw_Header w !! "Cache-Control" = Some ["no-cache"] /\
    rw_Header w !! "Connection" = Some ["keep-alive"] /\
    forall k : string,
      k <> "Content-Type" -> k <> "Cache-Control" -> k <> "Connection" ->
      rw_Header w !! k = rw_Header (enableCors newResponseWriter) !! k.
Proof.
  intros Hacc Hs Hj Hnew Hdo Hst.
  rewrite (proxyHandler_accepted E r chatReq Hacc).
  unfold dispatch. rewrite Hj, Hnew. cbn [negb]. cbv zeta. rewrite Hdo.
  cbn [outcome]. apply Z.leb_gt in Hst. rewrite Hst, Hs.
  eexists. split; [reflexivity|]. split; [reflexivity|]. split; [reflexivity|].
  split; [reflexivity|]. split; [reflexivity|]. split; [reflexivity|].
  intros k H1 H2 H3. unfold startStreaming. rewrite header_WriteHeader.
  unfold setHeader, Header_Set. cbn [rw_Header].
  rewrite !lookup_insert_ne by congruence. reflexivity.
Qed.

Lemma streaming_reply_started_witness :
  exists w : ResponseWriter,
    outcome (proxyHandler (gateway streamingRequest (Some (okReply "<events>")))
               (post "/v1/chat/completions" "<chat>"))
      = Relaying w (okReply "<events>") /\
    rw_Status w = Some 200 /\
    rw_Header w !! "Content-Type" = Some ["text/event-stream"].
Proof.
  destruct (streaming_reply_started
              (gateway streamingRequest (Some (okReply "<events>")))
              (post "/v1/chat/completions" "<chat>") streamingRequest
              (default JNull (upstreamJSON chatConfig streamingRequest))
              (okReply "<events>"))
    as (w & Hw & Hs & _ & Hc & _).
  - repeat split; try discriminate. exists "<chat>". split; reflexivity.
  - reflexivity.
  - reflexivity.
  - reflexivity.
  - reflexivity.
  - simpl. lia.
  - exists w. split; [exact Hw|]. split; [exact Hs|exact Hc].
Defined.

(** ** The relay loop, line by line *)

Lemma linesFrom_cutLine (s cur : string) :
  linesFrom cur s =
  match cutLine s with
  | Some (line, rest) => (cur ++ line) :: linesFrom "" rest
  | None => []
  end.
Proof.
  revert cur. induction s as [|c s IH]; intros cur; [reflexivity|].
  cbn [linesFrom cutLine]. destruct (Ascii.eqb c LF); [reflexivity|].
  rewrite IH. destruct (cutLine s) as [[line rest]|]; [|reflexivity].
  f_equal. rewrite <- append_assoc. reflexivity.
Qed.

Lemma linesOf_nil (data : string) : linesOf data = [] -> cutLine data = None.
Proof.
  unfold linesOf. rewrite linesFrom_cutLine.
  destruct (cutLine data) as [[line rest]|]; [discriminate|reflexivity].
Qed.

Lemma linesOf_cons (data l : string) (ls : list string) :
  linesOf data = l :: ls ->
  exists rest, cutLine data = Some (l, rest) /\ linesOf rest = ls.
Proof.
  unfold linesOf. rewrite linesFrom_cutLine.
  destruct (cutLine data) as [[line rest]|]; [|discriminate].
  change ("" ++ line) with line. intros [= -> <-]. eauto.
Qed.

Lemma body_Write (b : string) (w : ResponseWriter) :
  rw_Body (Write b w) = rw_Body w ++ b.
Proof. unfold Write, WriteHeader. by destruct (rw_Status w). Qed.

Lemma status_Write (b : string) (w : ResponseWriter) :
  rw_Status w <> None -> rw_Status (Write b w) = rw_Status w.
Proof.
  unfold Write, WriteHeader. destruct (rw_Status w) eqn:Hs; simpl; congruence.
Qed.

Lemma append_empty (s : string) : s ++ "" = s.
Proof.
  induction s as [|c s IH]; [reflexivity|].
  change (String c s ++ "") with (String c (s ++ "")). by rewrite IH.
Qed.

(** The writer after the lines [ls] are written to it one by one. *)
Lemma writes_spec (ls : list string) (w : ResponseWriter) :
  rw_Body (fold_left (fun w l => Write l w) ls w) = rw_Body w ++ joined ls /\
  rw_Header (fold_left (fun w l => Write l w) ls w) = rw_Header w /\
  (rw_Status w <> None ->
   rw_Status (fold_left (fun w l => Write l w) ls w) = rw_Status w).
Proof.
  revert w. induction ls as [|l ls IH]; intros w; simpl.
  - by rewrite append_empty.
  - destruct (IH (Write l w)) as (Hb & Hh & Hs). rewrite Hb, Hh.
    split; [|split].
    + rewrite body_Write, <- append_assoc. reflexivity.
    + apply header_Write.
    + intros Hw. rewrite Hs; rewrite status_Write by exact Hw; [reflexivity|exact Hw].
Qed.

(** With a connected client and writes that succeed, [length ls]
    iterations consume the complete lines [ls] of the upstream and write
    those that are not blank. *)
Lemma relayLoop_consume (ls : list string) :
  forall (data : string) (e : ending) (w : ResponseWriter) (c : bool) (n i : nat),
    linesOf data = ls ->
    exists tail : string,
      cutLine tail = None /\
      relayLoop quiet quiet (length ls + n) i
        {| rl_upstream := {| body_data := data; body_ending := e |};
           rl_w := w; rl_cancelled := c |}
      = relayLoop quiet quiet n (length ls + i)
          {| rl_upstream := {| body_data := tail; body_ending := e |};
             rl_w := fold_left (fun w l => Write l w)
                       (List.filter (fun line => negb (blank line)) ls) w;
             rl_cancelled := c |}.
Proof.
  induction ls as [|l ls IH]; intros data e w c n i Hls.
  - exists data. split; [by apply linesOf_nil|reflexivity].
  - destruct (linesOf_cons data l ls Hls) as (rest & Hcut & Hrest).
    cbn [length Nat.add relayLoop]. change (quiet i) with false.
    unfold relayStep at 1. unfold ReadBytes. cbn [rl_upstream body_data body_ending].
    rewrite Hcut. cbn [List.filter].
    destruct (blank l); cbn [negb rl_w rl_cancelled].
    + destruct (IH rest e w c n (S i) Hrest) as (tail & Ht & Hrun).
      exists tail. split; [exact Ht|]. rewrite Hrun. f_equal. lia.
    + destruct (IH rest e (Write l w) c n (S i) Hrest) as (tail & Ht & Hrun).
      exists tail. split; [exact Ht|]. rewrite Hrun. cbn [fold_left]. f_equal. lia.
Qed.

Lemma relayLoop_drained (n i : nat) (st : Relay) :
  rl_upstream st = {| body_data := ""; body_ending := EOF |} ->
  relayLoop quiet quiet n i st = Active st.
Proof.
  revert i. induction n as [|n IH]; intros i H; [reflexivity|].
  cbn [relayLoop]. change (quiet i) with false.
  rewrite (relayStep_drained st H). by apply IH.
Qed.

(** With a connected client and writes that succeed, the relay forwards
    the complete lines of an upstream stream that are not blank, in their
    order and byte for byte, and nothing else; it leaves the headers
    alone. Here the stream ends cleanly, and the loop is still running. *)
Theorem relay_forwards_payload (w : ResponseWriter) (data : string) (n : nat) :
  (length (linesOf data) < n)%nat ->
  exists st : Relay,
    relayLoop quiet quiet n 0 (startRelay w (upstreamStream data EOF)) = Active st /\
    rw_Body (rl_w st) = rw_Body w ++ joined (payload data) /\
    rw_Header (rl_w st) = rw_Header w /\
    rl_cancelled st = false.
Proof.
  intros Hn.
  destruct (relayLoop_consume (linesOf data) data EOF w false
              (n - length (linesOf data)) 0 eq_refl) as (tail & Htail & Hrun).
  replace (length (linesOf data) + (n - length (linesOf data)))%nat with n in Hrun by lia.
  unfold startRelay, upstreamStream. cbn [resp_Body]. rewrite Hrun.
  destruct (n - length (linesOf data))%nat as [|k] eqn:Hk; [lia|].
  cbn [relayLoop]. change (quiet _) with false.
  unfold relayStep at 1. unfold ReadBytes. cbn [rl_upstream body_data body_ending].
  rewrite Htail. cbn [rl_w rl_cancelled].
  rewrite relayLoop_drained by reflexivity.
  eexists. split; [reflexivity|]. cbn [rl_w rl_cancelled].
  destruct (writes_spec (payload data) w) as (Hb & Hh & _).
  split; [exact Hb|]. split; [exact Hh|reflexivity].
Qed.

Lemma relay_forwards_payload_witness :
  exists st : Relay,
    relayLoop quiet quiet 4 0
      (startRelay newResponseWriter
         (upstreamStream (ln "data: a" ++ nbspLine ++ ln "data: b") EOF)) = Active st /\
    rw_Body (rl_w st) = ln "data: a" ++ ln "data: b".
Proof.
  destruct (relay_forwards_payload newResponseWriter
              (ln "data: a" ++ nbspLine ++ ln "data: b") 4) as (st & Hst & Hb & _).
  - vm_compute. lia.
  - exists st. split; [exact Hst|]. rewrite Hb. reflexivity.
Defined.

(** When the upstream stream breaks with a read error, the relay returns
    after at most one iteration per line and one more: it has forwarded
    the complete lines that are not blank and has called [cancel]. *)
Theorem relay_closes_on_read_error (w : ResponseWriter) (data : string) (n : nat) :
  (length (linesOf data) < n)%nat ->
  exists st : Relay,
    relayLoop quiet quiet n 0 (startRelay w (upstreamStream data ReadError)) = Closed st /\
    rl_cancelled st = true /\
    rw_Body (rl_w st) = rw_Body w ++ joined (payload data) /\
    rw_Header (rl_w st) = rw_Header w.
Proof.
  intros Hn.
  destruct (relayLoop_consume (linesOf data) data ReadError w false
              (n - length (linesOf data)) 0 eq_refl) as (tail & Htail & Hrun).
  replace (length (linesOf data) + (n - length (linesOf data)))%nat with n in Hrun by lia.
  unfold startRelay, upstreamStream. cbn [resp_Body]. rewrite Hrun.
  destruct (n - length (linesOf data))%nat as [|k] eqn:Hk; [lia|].
  cbn [relayLoop]. change (quiet _) with false.
  unfold relayStep at 1. unfold ReadBytes. cbn [rl_upstream body_data body_ending].
  rewrite Htail. cbn [rl_w rl_cancelled].
  eexists. split; [reflexivity|]. cbn [rl_w rl_cancelled].
  destruct (writes_spec (payload data) w) as (Hb & Hh & _).
  split; [reflexivity|]. split; [exact Hb|exact Hh].
Qed.

Lemma relay_closes_on_read_error_witness :
  exists st : Relay,
    relayLoop quiet quiet 3 0
      (startRelay newResponseWriter
         (upstreamStream (nbspLine ++ ln "data: a" ++ "data: b") ReadError)) = Closed st /\
    rl_cancelled st = true /\
    rw_Body (rl_w st) = ln "data: a".
Proof.
  destruct (relay_closes_on_read_error newResponseWriter
              (nbspLine ++ ln "data: a" ++ "data: b") 3) as (st & Hst & Hc & Hb & _).
  - vm_compute. lia.
  - exists st. split; [exact Hst|]. split; [exact Hc|]. rewrite Hb. reflexivity.
Defined.

Lemma relayLoop_write_fails (ls : list string) :
  forall (data : string) (e : ending) (w : ResponseWriter) (c : bool) (n i : nat),
    linesOf data = ls ->
    List.filter (fun line => negb (blank line)) ls <> [] ->
    (length ls <= n)%nat ->
    exists st : Relay,
      relayLoop quiet (fun _ => true) n i
        {| rl_upstream := {| body_data := data; body_ending := e |};
           rl_w := w; rl_cancelled := c |} = Closed st /\
      rl_cancelled st = true /\ rl_w st = w.
Proof.
  induction ls as [|l ls IH]; intros data e w c n i Hls Hne Hn; [done|].
  destruct (linesOf_cons data l ls Hls) as (rest & Hcut & Hrest).
  destruct n as [|n]; [simpl in Hn; lia|].
  cbn [relayLoop]. change (quiet i) with false.
  unfold relayStep at 1. unfold ReadBytes. cbn [rl_upstream body_data body_ending].
  rewrite Hcut. cbn [List.filter] in Hne.
  destruct (blank l); cbn [negb rl_w rl_cancelled] in *.
  - apply (IH rest e w c n (S i) Hrest Hne). simpl in Hn. lia.
  - eexists. split; [reflexivity|]. split; reflexivity.
Qed.

(** When the writes to the client fail, the relay returns at the first
    line that is not blank: it has called [cancel] and has written
    nothing. *)
Theorem relay_closes_on_write_failure
  (w : ResponseWriter) (data : string) (e : ending) (n : nat) :
  payload data <> [] ->
  (length (linesOf data) <= n)%nat ->
  exists st : Relay,
    relayLoop quiet (fun _ => true) n 0 (startRelay w (upstreamStream data e)) = Closed st /\
    rl_cancelled st = true /\
    rl_w st = w.
Proof.
  intros Hp Hn. unfold startRelay, upstreamStream. cbn [resp_Body].
  by apply (relayLoop_write_fails (linesOf data)).
Qed.

Lemma relay_closes_on_write_failure_witness :
  exists st : Relay,
    relayLoop quiet (fun _ => true) 2 0
      (startRelay newResponseWriter (upstreamStream (nbspLine ++ ln "data: a") EOF))
      = Closed st /\
    rl_cancelled st = true /\ rl_w st = newResponseWriter.
Proof.
  apply (relay_closes_on_write_failure newResponseWriter (nbspLine ++ ln "data: a") EOF 2).
  - vm_compute. discriminate.
  - vm_compute. lia.
Defined.

Lemma relayLoop_cancel_from (ctxDone writeFails : nat -> bool) (i : nat) :
  forall (s : nat) (st : Relay),
    ctxDone (s + i)%nat = true ->
    isClosed (relayLoop ctxDone writeFails (S i) s st) = true.
Proof.
  induction i as [|i IH]; intros s st H.
  - cbn [relayLoop]. rewrite Nat.add_0_r in H. rewrite H. reflexivity.
  - cbn [relayLoop].
    destruct (relayStep (ctxDone s) (writeFails s) st) as [st1|st1]; [|reflexivity].
    apply (IH (S s) st1). by replace (S s + i)%nat with (s + S i)%nat by lia.
Qed.

(** Whatever the upstream sends and whatever the writes do, once the
    shared context is cancelled the relay returns: a context found
    cancelled at iteration [i] means the loop has returned after [i + 1]
    iterations. *)
Theorem relay_closes_on_cancel
  (ctxDone writeFails : nat -> bool) (i : nat) (st : Relay) :
  ctxDone i = true ->
  isClosed (relayLoop ctxDone writeFails (S i) 0 st) = true.
Proof. intros H. by apply relayLoop_cancel_from. Qed.

Lemma relay_closes_on_cancel_witness :
  isClosed (relayLoop (fun i => (2 <=? i)%nat) quiet 3 0
              (startRelay newResponseWriter (upstreamStream (ln "data: a") EOF)))
  = true.
Proof.
  apply (relay_closes_on_cancel (fun i => (2 <=? i)%nat) quiet 2). reflexivity.
Defined.

Lemma relayStep_appends (done fails : bool) (st : Relay) :
  let st' := relayState (relayStep done fails st) in
  (exists suffix : string, rw_Body (rl_w st') = rw_Body (rl_w st) ++ suffix) /\
  rw_Header (rl_w st') = rw_Header (rl_w st) /\
  (rw_Status (rl_w st) <> None -> rw_Status (rl_w st') = rw_Status (rl_w st)).
Proof.
  cbv zeta. unfold relayStep.
  destruct done; [simpl; split; [exists ""; by rewrite append_empty|by split]|].
  destruct (ReadBytes (rl_upstream st)) as [[line err] rest].
  destruct err as [[|]|]; [| |destruct (blank line); [|destruct fails]];
    cbn [relayState rl_w];
    try (split; [exists ""; by rewrite append_empty|by split]).
  split; [exists line; apply body_Write|].
  split; [apply header_Write|apply status_Write].
Qed.

(** The relay only ever appends to the bytes already written to the
    client, and it changes neither the headers nor a status that is
    written, whatever the upstream, the client and the context do. *)
Theorem relay_only_appends
  (ctxDone writeFails : nat -> bool) (fuel i : nat) (st : Relay) :
  rw_Status (rl_w st) <> None ->
  let st' := relayState (relayLoop ctxDone writeFails fuel i st) in
  (exists suffix : string, rw_Body (rl_w st') = rw_Body (rl_w st) ++ suffix) /\
  rw_Header (rl_w st') = rw_Header (rl_w st) /\
  rw_Status (rl_w st') = rw_Status (rl_w st).
Proof.
  cbv zeta. revert i st. induction fuel as [|fuel IH]; intros i st Hs.
  - simpl. split; [exists ""; by rewrite append_empty|by split].
  - cbn [relayLoop].
    destruct (relayStep_appends (ctxDone i) (writeFails i) st) as ((sfx & Hb) & Hh & Hst).
    specialize (Hst Hs).
    destruct (relayStep (ctxDone i) (writeFails i) st) as [st1|st1];
      cbn [relayState] in *.
    + destruct (IH (S i) st1) as ((sfx' & Hb') & Hh' & Hst'); [congruence|].
      split; [|split; congruence].
      exists (sfx ++ sfx'). rewrite Hb', Hb, <- append_assoc. reflexivity.
    + split; [eauto|by split].
Qed.

Lemma relay_only_appends_witness :
  rw_Status (rl_w (relayState (relayLoop quiet quiet 3 0
     (startRelay (WriteHeader 200 newResponseWriter)
        (upstreamStream (ln "data: a") EOF))))) = Some 200.
Proof.
  refine (proj2 (proj2 (relay_only_appends quiet quiet 3 0
     (startRelay (WriteHeader 200 newResponseWriter)
        (upstreamStream (ln "data: a") EOF)) _))).
  discriminate.
Defined.

(** ** The converted reply *)

(** What [handleRegularResponse] makes of a decoded upstream reply: it
    keeps the id, the creation time, the usage and the number and order
    of the choices; every choice keeps its index, finish reason, role,
    content, tool-call id and name; and the tool calls of a choice are
    those of the upstream followed by those of them that have a function
    name. *)
Theorem convertResponse_frame (reply : Completion) :
  cc_ID (convertResponse reply) = cc_ID reply /\
  cc_Created (convertResponse reply) = cc_Created reply /\
  cc_Usage (convertResponse reply) = cc_Usage reply /\
  length (cc_Choices (convertResponse reply)) = length (cc_Choices reply) /\
  forall (i : nat) (c : Choice),
    cc_Choices reply !! i = Some c ->
    exists c' : Choice,
      cc_Choices (convertResponse reply) !! i = Some c' /\
      ch_Index c' = ch_Index c /\
      ch_FinishReason c' = ch_FinishReason c /\
      Role (ch_Message c') = Role (ch_Message c) /\
      Content (ch_Message c') = Content (ch_Message c) /\
      ToolCallID (ch_Message c') = ToolCallID (ch_Message c) /\
      Name (ch_Message c') = Name (ch_Message c) /\
      ToolCalls (ch_Message c') =
        (ToolCalls (ch_Message c) ++ List.filter named (ToolCalls (ch_Message c)))%list.
Proof.
  split; [reflexivity|]. split; [reflexivity|]. split; [reflexivity|].
  destruct (convertResponse_choices reply) as [Hlen Hlook].
  split; [exact Hlen|]. intros i c Hc. exists (convertChoice c).
  split; [by rewrite Hlook, Hc|].
  destruct (convertChoice_frame c) as (H1 & H2 & H3 & H4 & H5 & H6).
  repeat (split; [assumption|]). apply convertChoice_tool_calls.
Qed.

Lemma convertResponse_frame_witness :
  exists c' : Choice,
    cc_Choices (convertResponse (upstreamReply [sampleCall "call_1" ""])) !! 0%nat
      = Some c' /\
    ch_FinishReason c' = "tool_calls" /\
    ToolCalls (ch_Message c') = [sampleCall "call_1" ""].
Proof.
  destruct (proj2 (proj2 (proj2 (proj2
              (convertResponse_frame (upstreamReply [sampleCall "call_1" ""])))))
              0%nat _ eq_refl)
    as (c' & Hc & _ & Hf & _ & _ & _ & _ & Ht).
  exists c'. split; [exact Hc|]. split; [exact Hf|exact Ht].
Defined.

(** A reply none of whose choices carries a tool call comes out with its
    choices unchanged. *)
Theorem convertResponse_plain (reply : Completion) :
  (forall c : Choice, c ∈ cc_Choices reply -> ToolCalls (ch_Message c) = []) ->
  cc_Choices (convertResponse reply) = cc_Choices reply.
Proof.
  intros H. cbn [convertResponse cc_Choices].
  induction (cc_Choices reply) as [|c cs IH]; [reflexivity|].
  cbn [fmap list_fmap]. f_equal.
  - apply convertChoice_no_tool_calls, H. left.
  - apply IH. intros c' Hc'. apply H. by right.
Qed.

Lemma convertResponse_plain_witness :
  cc_Choices (convertResponse (upstreamReply [])) = cc_Choices (upstreamReply []).
Proof.
  apply convertResponse_plain. intros c Hc.
  apply list_elem_of_singleton in Hc as ->. reflexivity.
Defined.

(** ** Blank lines *)

Lemma utf8_DecodeRune_shorter (c : ascii) (s : string) :
  (String.length (utf8_DecodeRune (String c s)).2 <= String.length s)%nat.
Proof.
  unfold utf8_DecodeRune. cbv zeta.
  repeat case_match; subst; cbn [snd String.length]; lia.
Qed.

(** The fuel of [blank] is enough: more of it gives the same answer. *)
Lemma allSpace_fuel (n m : nat) (s : string) :
  (String.length s <= n)%nat -> (String.length s <= m)%nat ->
  allSpace n s = allSpace m s.
Proof.
  revert m s. induction n as [|n IH]; intros m s Hn Hm.
  - destruct s; [by destruct m|simpl in Hn; lia].
  - destruct s as [|c s]; [by destruct m|].
    destruct m as [|m]; [simpl in Hm; lia|].
    cbn [allSpace]. pose proof (utf8_DecodeRune_shorter c s) as Hlen.
    destruct (utf8_DecodeRune (String c s)) as [r rest]. cbn [snd] in Hlen.
    simpl in Hn, Hm. f_equal. apply IH; lia.
Qed.

(** A line of white space followed by a blank text is blank, and a text
    that starts with a letter is not: the no-break space counts as white
    space, as it does for [bytes.TrimSpace]. *)
Lemma blank_examples :
  blank nbspLine = true /\
  blank (ln "") = true /\
  blank (ln "data: a") = false /\
  payload (ln "data: a" ++ nbspLine ++ ln "data: b") = [ln "data: a"; ln "data: b"].
Proof. vm_compute. repeat split. Qed.

(** ** The two writers *)

(** The activities of the source take no mutex. *)
Lemma source_takes_no_mutex (ticks : nat) (data : string) (e : Event) :
  e ∈ (heartbeatProgram ticks ++ relayProgram data)%list ->
  forall a : Activity, e <> Acquire a /\ e <> Release a.
Proof.
  intros He a. apply elem_of_app in He as [He|He].
  - unfold heartbeatProgram in He. apply list_elem_of_In, in_concat in He as (l & Hl & He).
    apply list_elem_of_In, elem_of_replicate_inv in Hl as ->.
    apply list_elem_of_In in He. unfold heartbeatTick in He.
    repeat (apply elem_of_cons in He as [->|He]; [split; discriminate|]).
    by apply elem_of_nil in He.
  - unfold relayProgram in He. apply list_elem_of_In, in_concat in He as (l & Hl & He).
    apply list_elem_of_In, list_elem_of_fmap in Hl as (line & -> & _).
    apply list_elem_of_In in He. unfold relayLine in He.
    repeat (apply elem_of_cons in He as [->|He]; [split; discriminate|]).
    by apply elem_of_nil in He.
Qed.

(** With a mutex around each write and its flush, no schedule lets one
    write start inside another: checked on one tick and one line for
    every schedule of twelve steps, two more than the events of both. *)
Lemma locked_writes_exclusive :
  forallb
    (fun schedule =>
       writesExclusive None
         (interleave schedule None
            (locked HeartbeatActivity heartbeatTick)
            (locked RelayActivity (relayLine (ln "data: a")))))
    (schedules 12) = true.
Proof. vm_compute. reflexivity. Qed.

(** C9, on a stream with the line [data: a] during which the heartbeat
    ticks once: the relay enters [w.Write] for the line, and before that
    call returns the heartbeat enters [w.Write] for its comment; nothing in
    the code keeps the second call out, where the claim has the two writes
    mutually exclusive. *)
Theorem heartbeat_write_overlaps_relay_write :
  let schedule :=
    [RelayActivity; HeartbeatActivity; HeartbeatActivity;
     RelayActivity; RelayActivity; HeartbeatActivity] in
  let trace :=
    interleave schedule None (heartbeatProgram 1) (relayProgram (ln "data: a")) in
  trace =
    [WriteEnter RelayActivity (ln "data: a");
     WriteEnter HeartbeatActivity (ln (ln ": heartbeat"));
     WriteLeave HeartbeatActivity;
     WriteLeave RelayActivity;
     FlushCall RelayActivity;
     FlushCall HeartbeatActivity] /\
  writesExclusive None trace = false.
Proof. vm_compute. split; reflexivity. Qed.
